(** * Stock ledger and finance page of ELLES 224

    A shallow embedding of the finance page of the React front end
    (the [Finance] component: [calculateMetrics], [getSalesForTable],
    [getBestSellers]) and of the movement ledger it reads from.

    Numbers of the page are IEEE 754 binary64 values, as in JavaScript:
    prices, discounts and amounts are primitive floats.  The quantity of
    an item or of a movement is an integer column of the API and is kept in
    [Z]; [Js.of_Z] is the double the JSON number denotes, and it is that
    double which enters a product, a sum or a difference.  The quantity a
    group of sales adds up to is computed by the page and is a double.  Time values
    ([Date.prototype.getTime]) are integral and kept in [Z], with [None]
    for the NaN of an invalid date. *)

From Stdlib Require Import ZArith List String Ascii Bool Lia Floats.
From Stdlib Require Import Permutation Sorted QArith.
From stdpp Require gmap.
Import ListNotations.
Local Open Scope string_scope.
Local Open Scope list_scope.
Local Open Scope Z_scope.

(** ** The JavaScript side the page relies on *)

Module Js.

(** The double denoted by an integral JSON number (round to nearest even,
    exact below 2^53). *)
Definition of_Z (z : Z) : float :=
  SF2Prim (binary_normalize prec emax z 0 false).

(** [Date]: what the page uses of it.  [date_parse s] is the time value of
    [new Date(s)] in milliseconds, [None] when the date is invalid (NaN);
    [date_getMonth] and [date_getFullYear] are the local-time fields of a
    valid time value (months count from 0). *)
Class DateHost : Type := {
  date_parse : string -> option Z;
  date_getMonth : Z -> Z;
  date_getFullYear : Z -> Z
}.

(** [a >= b] and [a <= b] on two [Date] objects: both are converted to
    their time values, and a comparison with NaN is false. *)
Definition date_geb (a b : option Z) : bool :=
  match a, b with
  | Some x, Some y => y <=? x
  | _, _ => false
  end.

Definition date_leb (a b : option Z) : bool :=
  match a, b with
  | Some x, Some y => x <=? y
  | _, _ => false
  end.

(** [d.getMonth() === e.getMonth()] (and the same for the year) where the
    field of an invalid date is NaN, which is [===] to nothing. *)
Definition field_eqb (f : Z -> Z) (a b : option Z) : bool :=
  match a, b with
  | Some x, Some y => f x =? f y
  | _, _ => false
  end.

(** [Array.prototype.sort (comparefn)].  The sort is stable; [comparefn a b]
    positive puts [a] after [b], a zero or NaN result leaves the two in
    place.  For a consistent comparator the result does not depend on the
    algorithm; the model inserts from the right. *)
Section Sort.
Context {A : Type} (comparefn : A -> A -> Z).

Fixpoint insert (x : A) (l : list A) : list A :=
  match l with
  | [] => [x]
  | y :: l' => if 0 <? comparefn x y then y :: insert x l' else x :: l
  end.

Definition sort (l : list A) : list A := fold_right insert [] l.

(** On the elements of [l], [comparefn a b] is positive exactly when [a]
    has the smaller [key], as is [key b - key a]: the comparator orders by
    descending key. *)
Definition orders_desc (key : A -> Z) (l : list A) : Prop :=
  forall x y, In x l -> In y l -> (0 <? comparefn x y) = (key x <? key y).

End Sort.

(** The number a comparator returns, as [sort] reads it: positive,
    negative, or zero; NaN counts as zero. *)
Definition compare_result (v : float) : Z :=
  if PrimFloat.ltb 0 v then 1 else if PrimFloat.ltb v 0 then -1 else 0.

(** A comparator that returns a number, as the comparator of [sort]. *)
Definition numeric {A} (comparefn : A -> A -> float) : A -> A -> Z :=
  fun a b => compare_result (comparefn a b).

(** [Map<string, V>]: keys are unique and iteration follows the order in
    which keys were first inserted. *)
Section Map.
Context {V : Type}.

Definition Map : Type := list (string * V).

Definition Map_empty : Map := [].

Fixpoint Map_get (key : string) (m : Map) : option V :=
  match m with
  | [] => None
  | (k, v) :: m' => if String.eqb k key then Some v else Map_get key m'
  end.

Fixpoint Map_set (key : string) (value : V) (m : Map) : Map :=
  match m with
  | [] => [(key, value)]
  | (k, v) :: m' =>
      if String.eqb k key then (k, value) :: m'
      else (k, v) :: Map_set key value m'
  end.

Definition Map_entries (m : Map) : list (string * V) := m.

(** The map that holds [f k] under each key [k] of [ks], in that order. *)
Definition tabulate (f : string -> V) (ks : list string) : Map :=
  map (fun n => (n, f n)) ks.

End Map.

Arguments Map : clear implicits.

(** A host for closed examples: the zone is UTC and the two ISO forms
    [YYYY-MM-DD] and [YYYY-MM-DDTHH:MM:SS] are read; the proleptic
    Gregorian calendar gives the fields. *)
Definition digit (c : ascii) : option Z :=
  let n := Z.of_nat (nat_of_ascii c) in
  if (48 <=? n) && (n <=? 57) then Some (n - 48) else None.

Fixpoint digits_from (acc : Z) (s : string) : option Z :=
  match s with
  | EmptyString => Some acc
  | String c s' =>
      match digit c with
      | Some d => digits_from (10 * acc + d) s'
      | None => None
      end
  end.

Definition field (s : string) (from len : nat) : option Z :=
  let f := substring from len s in
  if Nat.eqb (String.length f) len then digits_from 0 f else None.

Definition days_from_civil (y m d : Z) : Z :=
  let y' := if m <=? 2 then y - 1 else y in
  let era := y' / 400 in
  let yoe := y' - era * 400 in
  let mp := (m + 9) mod 12 in
  let doy := (153 * mp + 2) / 5 + d - 1 in
  let doe := yoe * 365 + yoe / 4 - yoe / 100 + doy in
  era * 146097 + doe - 719468.

Definition civil_from_days (z : Z) : Z * Z * Z :=
  let z := z + 719468 in
  let era := z / 146097 in
  let doe := z - era * 146097 in
  let yoe := (doe - doe / 1460 + doe / 36524 - doe / 146096) / 365 in
  let doy := doe - (365 * yoe + yoe / 4 - yoe / 100) in
  let mp := (5 * doy + 2) / 153 in
  let d := doy - (153 * mp + 2) / 5 + 1 in
  let m := if mp <? 10 then mp + 3 else mp - 9 in
  let y := yoe + era * 400 + (if m <=? 2 then 1 else 0) in
  (y, m, d).

Definition msPerDay : Z := 86400000.

Definition parse_date (s : string) : option Z :=
  match field s 0 4, field s 5 2, field s 8 2 with
  | Some y, Some m, Some d =>
      if String.eqb (substring 4 1 s) "-" && String.eqb (substring 7 1 s) "-"
         && (1 <=? m) && (m <=? 12) && (1 <=? d) && (d <=? 31)
      then Some (days_from_civil y m d * msPerDay) else None
  | _, _, _ => None
  end.

Definition parse_time (s : string) : option Z :=
  match field s 11 2, field s 14 2, field s 17 2 with
  | Some h, Some mi, Some sec =>
      if String.eqb (substring 10 1 s) "T" && String.eqb (substring 13 1 s) ":"
         && String.eqb (substring 16 1 s) ":"
         && (h <? 24) && (mi <? 60) && (sec <? 60)
      then Some (((h * 60 + mi) * 60 + sec) * 1000) else None
  | _, _, _ => None
  end.

Definition utc_parse (s : string) : option Z :=
  match String.length s with
  | 10%nat => parse_date s
  | 19%nat =>
      match parse_date (substring 0 10 s), parse_time s with
      | Some d, Some t => Some (d + t)
      | _, _ => None
      end
  | _ => None
  end.

Definition utc_getMonth (t : Z) : Z :=
  let '(_, m, _) := civil_from_days (t / msPerDay) in m - 1.

Definition utc_getFullYear (t : Z) : Z :=
  let '(y, _, _) := civil_from_days (t / msPerDay) in y.

Definition utcHost : DateHost :=
  {| date_parse := utc_parse;
     date_getMonth := utc_getMonth;
     date_getFullYear := utc_getFullYear |}.

End Js.

(** ** Data of the page: [interface StockItem], [interface Movement] *)

Inductive MovementType : Type := purchase | sale.

Definition MovementType_eqb (a b : MovementType) : bool :=
  match a, b with
  | purchase, purchase | sale, sale => true
  | _, _ => false
  end.

Module StockItem.
Record t : Type := {
  id : Z;
  reference : string;
  name : string;
  quantity : Z;
  unit_price : float;
  total_value : float
}.
End StockItem.

(** The record is parametric in what the [stock] field holds: a
    [StockItem] for a value of the declared type, an optional one for a
    JSON payload, in which nothing forces the field to be there. *)
Module Movement.
Record t (S : Type) : Type := {
  id : Z;
  date : string;
  stock_id : Z;
  movement_type : MovementType;
  quantity : Z;
  discount_percent : float;
  stock : S
}.
Arguments id {S} _.
Arguments date {S} _.
Arguments stock_id {S} _.
Arguments movement_type {S} _.
Arguments quantity {S} _.
Arguments discount_percent {S} _.
Arguments stock {S} _.
End Movement.

Module DateRange.
Record t : Type := { startDate : string; endDate : string }.
End DateRange.

Module FinancialMetrics.
Record t : Type := {
  totalRevenue : float;
  monthlyRevenue : float;
  totalSales : Z;
  averageDiscount : float;
  totalPurchases : Z;
  netCashFlow : float
}.
End FinancialMetrics.

Module ItemSales.
Record t : Type := { quantity : float; revenue : float }.
End ItemSales.

Module BestSeller.
Record t : Type := { name : string; quantity : float; revenue : float }.
End BestSeller.

(** ** The finance page, on values of the declared types *)

Module Finance.
Section Page.
Context {host : Js.DateHost}.

Definition Movement : Type := Movement.t StockItem.t.

Definition isSale {S} (m : Movement.t S) : bool :=
  MovementType_eqb (Movement.movement_type m) sale.

Definition isPurchase {S} (m : Movement.t S) : bool :=
  MovementType_eqb (Movement.movement_type m) purchase.

(** The callback of the date filter (lines 65-70 and 118-123). *)
Definition inDateRange {S} (dateRange : DateRange.t) (sale : Movement.t S) : bool :=
  let saleDate := Js.date_parse (Movement.date sale) in
  let start := Js.date_parse (DateRange.startDate dateRange) in
  let end_ := Js.date_parse (DateRange.endDate dateRange) in
  Js.date_geb saleDate start && Js.date_leb saleDate end_.

(** The callback of the month filter (lines 78-82); [now] is the time
    value of [new Date()]. *)
Definition inCurrentMonth {S} (now : Z) (sale : Movement.t S) : bool :=
  let saleDate := Js.date_parse (Movement.date sale) in
  Js.field_eqb Js.date_getMonth saleDate (Some now)
  && Js.field_eqb Js.date_getFullYear saleDate (Some now).

Definition priceAfterDiscount (sale : Movement) : float :=
  (StockItem.unit_price (Movement.stock sale)
   * (1 - Movement.discount_percent sale / 100))%float.

Definition calculateMetrics (movements : list Movement)
    (dateRange : DateRange.t) (now : Z) : FinancialMetrics.t :=
  let sales := filter isSale movements in
  let purchases := filter isPurchase movements in
  let filteredSales := filter (inDateRange dateRange) sales in
  let totalRevenue :=
    fold_left (fun sum sale =>
      (sum + priceAfterDiscount sale * Js.of_Z (Movement.quantity sale))%float)
      filteredSales 0%float in
  let monthlyRevenue :=
    fold_left (fun sum sale =>
      (sum + priceAfterDiscount sale * Js.of_Z (Movement.quantity sale))%float)
      (filter (inCurrentMonth now) sales) 0%float in
  let totalSales := Z.of_nat (List.length filteredSales) in
  let totalPurchases := Z.of_nat (List.length purchases) in
  let averageDiscount :=
    if Z.of_nat (List.length filteredSales) >? 0
    then (fold_left (fun sum sale => (sum + Movement.discount_percent sale)%float)
            filteredSales 0%float
          / Js.of_Z (Z.of_nat (List.length filteredSales)))%float
    else 0%float in
  let totalPurchaseCost :=
    fold_left (fun sum purchase =>
      (sum + StockItem.unit_price (Movement.stock purchase)
             * Js.of_Z (Movement.quantity purchase))%float)
      purchases 0%float in
  let netCashFlow := (totalRevenue - totalPurchaseCost)%float in
  {| FinancialMetrics.totalRevenue := totalRevenue;
     FinancialMetrics.monthlyRevenue := monthlyRevenue;
     FinancialMetrics.totalSales := totalSales;
     FinancialMetrics.averageDiscount := averageDiscount;
     FinancialMetrics.totalPurchases := totalPurchases;
     FinancialMetrics.netCashFlow := netCashFlow |}.

(** The comparator of the sales table (line 124).  A NaN difference counts
    as zero in [sort]. *)
Definition byDateDesc {S} (a b : Movement.t S) : Z :=
  match Js.date_parse (Movement.date b), Js.date_parse (Movement.date a) with
  | Some tb, Some ta => tb - ta
  | _, _ => 0
  end.

Definition getSalesForTable (movements : list Movement)
    (dateRange : DateRange.t) : list Movement :=
  Js.sort byDateDesc
    (filter (inDateRange dateRange) (filter isSale movements)).

(** The body of the [forEach] of [getBestSellers] (lines 132-141), as a
    step on the map it fills. *)
Definition addSale (itemSales : Js.Map ItemSales.t) (sale : Movement)
  : Js.Map ItemSales.t :=
  let key := StockItem.name (Movement.stock sale) in
  let existing :=
    match Js.Map_get key itemSales with
    | Some e => e
    | None => {| ItemSales.quantity := 0%float; ItemSales.revenue := 0%float |}
    end in
  Js.Map_set key
    {| ItemSales.quantity :=
         (ItemSales.quantity existing + Js.of_Z (Movement.quantity sale))%float;
       ItemSales.revenue :=
         (ItemSales.revenue existing
          + priceAfterDiscount sale * Js.of_Z (Movement.quantity sale))%float |}
    itemSales.

(** The comparator of the best sellers (line 145). *)
Definition byQuantityDesc (a b : BestSeller.t) : float :=
  (BestSeller.quantity b - BestSeller.quantity a)%float.

Definition toBestSeller (entry : string * ItemSales.t) : BestSeller.t :=
  let '(name, data) := entry in
  {| BestSeller.name := name;
     BestSeller.quantity := ItemSales.quantity data;
     BestSeller.revenue := ItemSales.revenue data |}.

(** [getBestSellers] before its final [slice (0, 5)]. *)
Definition rankedSellers (movements : list Movement) : list BestSeller.t :=
  let sales := filter isSale movements in
  let itemSales := fold_left addSale sales Js.Map_empty in
  Js.sort (Js.numeric byQuantityDesc)
    (map toBestSeller (Js.Map_entries itemSales)).

Definition getBestSellers (movements : list Movement) : list BestSeller.t :=
  firstn 5 (rankedSellers movements).

End Page.
End Finance.

(** ** The finance page at run time

    At run time the [movements] state is a JavaScript array fetched from
    [/api/movements]: it lives in a store, array methods allocate or update
    arrays in that store, and a payload whose [stock] is absent makes
    [sale.stock.unit_price] throw a [TypeError]. *)

Module Runtime.

Inductive error : Type :=
| TypeError
| Unallocated. (* no JavaScript outcome: an address outside the store *)

Inductive result (A : Type) : Type :=
| Ok (a : A)
| Throw (e : error).
Arguments Ok {A} a.
Arguments Throw {A} e.

Definition rbind {A B} (x : result A) (k : A -> result B) : result B :=
  match x with
  | Ok a => k a
  | Throw e => Throw e
  end.

Definition JsonMovement : Type := Movement.t (option StockItem.t).

Definition ref : Type := nat.

(** The arrays of movements, by address. *)
Definition store : Type := list (list JsonMovement).

Definition M (A : Type) : Type := store -> result A * store.

Definition ret {A} (a : A) : M A := fun h => (Ok a, h).

Definition bind {A B} (c : M A) (k : A -> M B) : M B :=
  fun h =>
    match c h with
    | (Ok a, h') => k a h'
    | (Throw e, h') => (Throw e, h')
    end.

Definition lift {A} (x : result A) : M A := fun h => (x, h).

Declare Scope js_scope.
Delimit Scope js_scope with js.
Notation "x <- c ;; k" := (bind c (fun x => k))
  (at level 61, c at next level, right associativity) : js_scope.
Notation "x <-? c ;; k" := (rbind c (fun x => k))
  (at level 61, c at next level, right associativity) : js_scope.
Local Open Scope js_scope.

Definition alloc (a : list JsonMovement) : M ref :=
  fun h => (Ok (List.length h), h ++ [a]).

Definition read (r : ref) : M (list JsonMovement) :=
  fun h =>
    match nth_error h r with
    | Some a => (Ok a, h)
    | None => (Throw Unallocated, h)
    end.

Fixpoint update (r : ref) (a : list JsonMovement) (h : store) : store :=
  match h, r with
  | [], _ => []
  | _ :: h', O => a :: h'
  | b :: h', S r' => b :: update r' a h'
  end.

Definition write (r : ref) (a : list JsonMovement) : M unit :=
  fun h => (Ok tt, update r a h).

(** [reduce] with a callback that may throw; the first throw ends it. *)
Fixpoint reduce_result {B} (f : B -> JsonMovement -> result B)
    (l : list JsonMovement) (acc : B) : result B :=
  match l with
  | [] => Ok acc
  | x :: l' => acc' <-? f acc x ;; reduce_result f l' acc'
  end.

(** [filter] returns a new array; [reduce], [forEach] and [length] read;
    [sort] sorts the array in place and returns it. *)
Definition Array_filter (p : JsonMovement -> bool) (r : ref) : M ref :=
  a <- read r ;; alloc (filter p a).

Definition Array_reduce {B} (f : B -> JsonMovement -> result B) (init : B)
    (r : ref) : M B :=
  a <- read r ;; lift (reduce_result f a init).

(** [forEach] whose callback updates an object [s] it closes over. *)
Definition Array_forEach {S} (f : S -> JsonMovement -> result S) (s : S)
    (r : ref) : M S :=
  a <- read r ;; lift (reduce_result f a s).

Definition Array_length (r : ref) : M Z :=
  a <- read r ;; ret (Z.of_nat (List.length a)).

Definition Array_sort (comparefn : JsonMovement -> JsonMovement -> Z)
    (r : ref) : M ref :=
  a <- read r ;; _ <- write r (Js.sort comparefn a) ;; ret r.

Section Page.
Context {host : Js.DateHost}.

(** [sale.stock.<field>]: reading a property of [null] or [undefined]
    throws. *)
Definition stockOf (m : JsonMovement) : result StockItem.t :=
  match Movement.stock m with
  | Some s => Ok s
  | None => Throw TypeError
  end.

Definition priceAfterDiscount (sale : JsonMovement) : result float :=
  s <-? stockOf sale ;;
  Ok (StockItem.unit_price s * (1 - Movement.discount_percent sale / 100))%float.

Definition addLineTotal (sum : float) (sale : JsonMovement) : result float :=
  p <-? priceAfterDiscount sale ;;
  Ok (sum + p * Js.of_Z (Movement.quantity sale))%float.

Definition addDiscount (sum : float) (sale : JsonMovement) : result float :=
  Ok (sum + Movement.discount_percent sale)%float.

Definition addPurchaseCost (sum : float) (purchase : JsonMovement)
  : result float :=
  s <-? stockOf purchase ;;
  Ok (sum + StockItem.unit_price s * Js.of_Z (Movement.quantity purchase))%float.

Definition calculateMetrics (movements : ref) (dateRange : DateRange.t)
    (now : Z) : M FinancialMetrics.t :=
  sales <- Array_filter Finance.isSale movements ;;
  purchases <- Array_filter Finance.isPurchase movements ;;
  filteredSales <- Array_filter (Finance.inDateRange dateRange) sales ;;
  totalRevenue <- Array_reduce addLineTotal 0%float filteredSales ;;
  monthSales <- Array_filter (Finance.inCurrentMonth now) sales ;;
  monthlyRevenue <- Array_reduce addLineTotal 0%float monthSales ;;
  totalSales <- Array_length filteredSales ;;
  totalPurchases <- Array_length purchases ;;
  averageDiscount <-
    (n <- Array_length filteredSales ;;
     if n >? 0
     then (s <- Array_reduce addDiscount 0%float filteredSales ;;
           n' <- Array_length filteredSales ;;
           ret (s / Js.of_Z n')%float)
     else ret 0%float) ;;
  totalPurchaseCost <- Array_reduce addPurchaseCost 0%float purchases ;;
  let netCashFlow := (totalRevenue - totalPurchaseCost)%float in
  ret {| FinancialMetrics.totalRevenue := totalRevenue;
         FinancialMetrics.monthlyRevenue := monthlyRevenue;
         FinancialMetrics.totalSales := totalSales;
         FinancialMetrics.averageDiscount := averageDiscount;
         FinancialMetrics.totalPurchases := totalPurchases;
         FinancialMetrics.netCashFlow := netCashFlow |}.

Definition getSalesForTable (movements : ref) (dateRange : DateRange.t)
  : M ref :=
  sales <- Array_filter Finance.isSale movements ;;
  inRange <- Array_filter (Finance.inDateRange dateRange) sales ;;
  Array_sort Finance.byDateDesc inRange.

Definition addSale (itemSales : Js.Map ItemSales.t) (sale : JsonMovement)
  : result (Js.Map ItemSales.t) :=
  s <-? stockOf sale ;;
  let key := StockItem.name s in
  let existing :=
    match Js.Map_get key itemSales with
    | Some e => e
    | None => {| ItemSales.quantity := 0%float; ItemSales.revenue := 0%float |}
    end in
  p <-? priceAfterDiscount sale ;;
  Ok (Js.Map_set key
        {| ItemSales.quantity :=
             (ItemSales.quantity existing
              + Js.of_Z (Movement.quantity sale))%float;
           ItemSales.revenue :=
             (ItemSales.revenue existing
              + p * Js.of_Z (Movement.quantity sale))%float |}
        itemSales).

Definition getBestSellers (movements : ref) : M (list BestSeller.t) :=
  sales <- Array_filter Finance.isSale movements ;;
  itemSales <- Array_forEach addSale Js.Map_empty sales ;;
  ret (firstn 5
         (Js.sort (Js.numeric Finance.byQuantityDesc)
            (map Finance.toBestSeller (Js.Map_entries itemSales)))).

(** A value of the declared type, as the payload that carries it. *)
Definition payload (m : Finance.Movement) : JsonMovement :=
  {| Movement.id := Movement.id m;
     Movement.date := Movement.date m;
     Movement.stock_id := Movement.stock_id m;
     Movement.movement_type := Movement.movement_type m;
     Movement.quantity := Movement.quantity m;
     Movement.discount_percent := Movement.discount_percent m;
     Movement.stock := Some (Movement.stock m) |}.

End Page.
End Runtime.

(** ** The movement ledger

    The ledger is served by the FastAPI back end ([services.py],
    [routers/movements.py]), which the front end only calls through
    [POST /api/movements/purchase] and [POST /api/movements/sale].  Its
    rules are taken from the specification of the movement ledger. *)

Module Ledger.
Import stdpp.base stdpp.gmap.
Local Open Scope Z_scope.

(** Modelled from the spec: the type of a movement, [PURCHASE | SALE];
    the enumeration of the back end is missing from the sources. *)
Inductive MovementType : Type := PURCHASE | SALE.

Definition MovementType_eqb (a b : MovementType) : bool :=
  match a, b with
  | PURCHASE, PURCHASE | SALE, SALE => true
  | _, _ => false
  end.

(** Modelled from the spec: the failures of a movement request; the
    errors raised by the back end are missing from the sources. *)
Inductive Error : Type :=
| ItemNotFound
| InvalidQuantity
| InvalidDiscount
| InsufficientStock.

(** Modelled from the spec: the Item of the data model, [{id, reference,
    name, quantity, unit_price}]; the registry that holds the items is
    missing from the sources. *)
Module Item.
Record t : Type := {
  id : Z;
  reference : string;
  name : string;
  quantity : Z;
  unit_price : Q
}.
End Item.

(** Modelled from the spec: the Movement of the data model, [{id, date,
    item_id, type, quantity, discount_percent}]; the ledger table is
    missing from the sources. *)
Module Movement.
Record t : Type := {
  id : Z;
  date : Z;
  item_id : Z;
  type : MovementType;
  quantity : Z;
  discount_percent : Q
}.
End Movement.

(** Modelled from the spec: the Item Registry (items by id, a deleted
    item is absent) and the append-only Movement Ledger, whose storage is
    missing from the sources. *)
Record State : Type := {
  items : gmap Z Item.t;
  ledger : list Movement.t
}.

(** Modelled from the spec: [discount_percent] lies in [0,100]; the check
    of the back end is missing from the sources. *)
Definition validDiscount (d : Q) : bool :=
  Qle_bool 0 d && Qle_bool d 100.

(** Modelled from the spec: step 1, Validate: the item must exist and not
    be deleted, the quantity is positive, and for a SALE the discount lies
    in [0,100].  The validation of the back end is missing from the
    sources. *)
Definition validate (st : State) (itemId : Z) (ty : MovementType)
    (qty : Z) (discount : Q) : Error + Item.t :=
  match items st !! itemId with
  | None => inl ItemNotFound
  | Some item =>
      if qty <=? 0 then inl InvalidQuantity
      else match ty with
           | SALE => if validDiscount discount then inr item
                     else inl InvalidDiscount
           | PURCHASE => inr item
           end
  end.

(** Modelled from the spec: step 2, Check availability (SALE only):
    [item.quantity >= requested_quantity], else InsufficientStock.  The
    check of the back end is missing from the sources. *)
Definition checkAvailability (ty : MovementType) (item : Item.t) (qty : Z)
  : Error + unit :=
  match ty with
  | SALE => if qty <=? Item.quantity item then inr tt
            else inl InsufficientStock
  | PURCHASE => inr tt
  end.

(** Modelled from the spec: step 3, Apply: PURCHASE adds the quantity,
    SALE subtracts it.  The stock update of the back end is missing from
    the sources. *)
Definition applyMovement (ty : MovementType) (item : Item.t) (qty : Z)
  : Item.t :=
  {| Item.id := Item.id item;
     Item.reference := Item.reference item;
     Item.name := Item.name item;
     Item.quantity :=
       match ty with
       | PURCHASE => Item.quantity item + qty
       | SALE => Item.quantity item - qty
       end;
     Item.unit_price := Item.unit_price item |}.

(** Modelled from the spec: steps 1 to 4 as one transition; a failure of
    step 1 or 2 returns the error and the state it was given.  [now] is the
    date the movement is created at.  [recordMovement] of the back end is
    missing from the sources. *)
Definition recordMovement (now : Z) (itemId : Z) (ty : MovementType)
    (qty : Z) (discount : Q) (st : State) : (Error + Movement.t) * State :=
  match validate st itemId ty qty discount with
  | inl e => (inl e, st)
  | inr item =>
      match checkAvailability ty item qty with
      | inl e => (inl e, st)
      | inr _ =>
          let movement :=
            {| Movement.id := Z.of_nat (List.length (ledger st)) + 1;
               Movement.date := now;
               Movement.item_id := itemId;
               Movement.type := ty;
               Movement.quantity := qty;
               Movement.discount_percent := discount |} in
          (inr movement,
           {| items := <[itemId := applyMovement ty item qty]> (items st);
              ledger := ledger st ++ [movement] |})
      end
  end.

(** Modelled from the spec: the two entry points of the external
    interface; a purchase carries no discount.  The routes of the back end
    are missing from the sources. *)
Definition recordPurchase (now itemId qty : Z) (st : State)
  : (Error + Movement.t) * State :=
  recordMovement now itemId PURCHASE qty 0%Q st.

(** Modelled from the spec: [recordSale (itemId, quantity,
    discountPercent)]; the sale route of the back end is missing from the
    sources. *)
Definition recordSale (now itemId qty : Z) (discountPercent : Q) (st : State)
  : (Error + Movement.t) * State :=
  recordMovement now itemId SALE qty discountPercent st.

(** Modelled from the spec: a movement request as the tagged variant
    [Purchase {itemId, quantity} | Sale {itemId, quantity,
    discountPercent}] of the design notes. *)
Inductive Request : Type :=
| Purchase (itemId quantity : Z)
| Sale (itemId quantity : Z) (discountPercent : Q).

(** Modelled from the spec: a request is served by the entry point it
    names. *)
Definition handle (now : Z) (req : Request) (st : State)
  : (Error + Movement.t) * State :=
  match req with
  | Purchase itemId qty => recordPurchase now itemId qty st
  | Sale itemId qty d => recordSale now itemId qty d st
  end.

(** Modelled from the spec: a sequence of dated requests, served one
    after the other by the single writer; the answers are kept in order. *)
Fixpoint serve (reqs : list (Z * Request)) (st : State)
  : list (Error + Movement.t) * State :=
  match reqs with
  | [] => ([], st)
  | (now, req) :: rest =>
      let '(r, st') := handle now req st in
      let '(rs, st'') := serve rest st' in
      (r :: rs, st'')
  end.

(** The movements of the requests that were applied. *)
Fixpoint applied (rs : list (Error + Movement.t)) : list Movement.t :=
  match rs with
  | [] => []
  | inr m :: rs' => m :: applied rs'
  | inl _ :: rs' => applied rs'
  end.

(** The sum of the quantities of the movements of type [ty] against item
    [itemId]. *)
Fixpoint total (ty : MovementType) (itemId : Z) (l : list Movement.t) : Z :=
  match l with
  | [] => 0
  | m :: l' =>
      (if (Movement.item_id m =? itemId)
          && MovementType_eqb (Movement.type m) ty
       then Movement.quantity m else 0) + total ty itemId l'
  end.

(** The scenario of the specification: item SKU1 with no stock and price
    50; a purchase of 10, a sale of 4, then a sale of 10. *)
Definition sku1 : Item.t :=
  {| Item.id := 1; Item.reference := "SKU1"; Item.name := "SKU1";
     Item.quantity := 0; Item.unit_price := 50%Q |}.

Definition scenarioStart : State :=
  {| items := {[ 1 := sku1 ]}; ledger := [] |}.

Definition scenario : list (Z * Request) :=
  [(1000, Purchase 1 10); (2000, Sale 1 4 0%Q); (3000, Sale 1 10 0%Q)].

End Ledger.

(** ** The aggregates as the specification words them *)

Module Spec.
Section Aggregates.
Context {host : Js.DateHost}.

(** A sum of amounts, taken in ledger order from zero. *)
Definition sum (l : list float) : float := fold_left PrimFloat.add l 0%float.

(** A sum of integers. *)
Definition sumZ (l : list Z) : Z := fold_left Z.add l 0.

(** [effective_unit_price = item.unit_price * (1 - discount_percent/100)]
    and [line_total = effective_unit_price * quantity]. *)
Definition effective_unit_price (m : Finance.Movement) : float :=
  (StockItem.unit_price (Movement.stock m)
   * (1 - Movement.discount_percent m / 100))%float.

Definition line_total (m : Finance.Movement) : float :=
  (effective_unit_price m * Js.of_Z (Movement.quantity m))%float.

Definition purchase_cost (m : Finance.Movement) : float :=
  (StockItem.unit_price (Movement.stock m)
   * Js.of_Z (Movement.quantity m))%float.

(** [date] lies in [[start, end]], both endpoints included. *)
Definition date_in_range (range : DateRange.t) (m : Finance.Movement) : Prop :=
  exists t s e,
    Js.date_parse (Movement.date m) = Some t
    /\ Js.date_parse (DateRange.startDate range) = Some s
    /\ Js.date_parse (DateRange.endDate range) = Some e
    /\ s <= t <= e.

Definition date_in_rangeb (range : DateRange.t) (m : Finance.Movement) : bool :=
  match Js.date_parse (Movement.date m),
        Js.date_parse (DateRange.startDate range),
        Js.date_parse (DateRange.endDate range) with
  | Some t, Some s, Some e => (s <=? t) && (t <=? e)
  | _, _, _ => false
  end.

(** [date] falls in the calendar month and year of [now]. *)
Definition date_in_monthb (now : Z) (m : Finance.Movement) : bool :=
  match Js.date_parse (Movement.date m) with
  | Some t =>
      (Js.date_getMonth t =? Js.date_getMonth now)
      && (Js.date_getFullYear t =? Js.date_getFullYear now)
  | None => false
  end.

(** The SALE movements whose date lies in the range, in ledger order. *)
Definition salesInRange (range : DateRange.t) (ms : list Finance.Movement)
  : list Finance.Movement :=
  filter (fun m => MovementType_eqb (Movement.movement_type m) sale
                   && date_in_rangeb range m) ms.

Definition totalRevenue (range : DateRange.t) (ms : list Finance.Movement)
  : float :=
  sum (map line_total (salesInRange range ms)).

Definition monthlyRevenue (now : Z) (ms : list Finance.Movement) : float :=
  sum (map line_total
         (filter (fun m => MovementType_eqb (Movement.movement_type m) sale
                           && date_in_monthb now m) ms)).

(** The cost of all PURCHASE movements, whatever their date. *)
Definition totalPurchaseCost (ms : list Finance.Movement) : float :=
  sum (map purchase_cost
         (filter (fun m => MovementType_eqb (Movement.movement_type m) purchase)
            ms)).

Definition netCashFlow (range : DateRange.t) (ms : list Finance.Movement)
  : float :=
  (totalRevenue range ms - totalPurchaseCost ms)%float.

(** The arithmetic mean of a list of numbers with at least one element. *)
Definition mean (l : list float) : float :=
  (sum l / Js.of_Z (Z.of_nat (List.length l)))%float.

Definition averageDiscount (range : DateRange.t) (ms : list Finance.Movement)
  : float :=
  match salesInRange range ms with
  | [] => 0%float
  | _ :: _ => mean (map Movement.discount_percent (salesInRange range ms))
  end.

(** The names in the order in which they first appear. *)
Fixpoint distinct (l : list string) : list string :=
  match l with
  | [] => []
  | n :: l' => n :: filter (fun k => negb (String.eqb k n)) (distinct l')
  end.

Definition named (n : string) (m : Finance.Movement) : bool :=
  String.eqb (StockItem.name (Movement.stock m)) n.

Definition nameOf (m : Finance.Movement) : string :=
  StockItem.name (Movement.stock m).

(** The quantity of a movement, as the number the page adds. *)
Definition units (m : Finance.Movement) : float := Js.of_Z (Movement.quantity m).

(** The summed quantity and revenue of the sales of [l] named [n]: what
    the map of [getBestSellers] holds for [n] once [l] has been added.
    Both are sums of binary64 numbers, taken in ledger order from zero. *)
Definition tally (l : list Finance.Movement) (n : string) : ItemSales.t :=
  {| ItemSales.quantity := sum (map units (filter (named n) l));
     ItemSales.revenue := sum (map line_total (filter (named n) l)) |}.

(** One group per item name over the SALE movements: the summed quantity
    and the summed discounted revenue of the sales of that name, both
    summed as binary64 numbers in ledger order. *)
Definition group (sales : list Finance.Movement) (n : string) : BestSeller.t :=
  {| BestSeller.name := n;
     BestSeller.quantity := sum (map units (filter (named n) sales));
     BestSeller.revenue := sum (map line_total (filter (named n) sales)) |}.

Definition groupByName (ms : list Finance.Movement) : list BestSeller.t :=
  let sales :=
    filter (fun m => MovementType_eqb (Movement.movement_type m) sale) ms in
  map (group sales)
    (distinct (map (fun m => StockItem.name (Movement.stock m)) sales)).

(** [out] is [l] sorted in descending order of [key] by a stable sort:
    the same elements, keys never increasing, and the elements of one key
    in the order they have in [l]. *)
Definition stable_sorted_desc {A} (key : A -> Z) (l out : list A) : Prop :=
  Permutation out l
  /\ StronglySorted (fun a b => key b <= key a) out
  /\ forall k, filter (fun x => key x =? k) out = filter (fun x => key x =? k) l.

(** The same for a key that is a binary64 number, compared as numbers
    are: keys never increasing ([<=] of two numbers), and the elements
    whose key equals ([==]) a given number in the order they have in [l]. *)
Definition stable_sorted_desc_number {A} (key : A -> float) (l out : list A)
  : Prop :=
  Permutation out l
  /\ StronglySorted (fun a b => PrimFloat.leb (key b) (key a) = true) out
  /\ forall q, filter (fun x => PrimFloat.eqb (key x) q) out
               = filter (fun x => PrimFloat.eqb (key x) q) l.

(** None of the numbers is NaN. *)
Definition noNaN (l : list float) : bool :=
  forallb (fun x => negb (PrimFloat.is_nan x)) l.

(** The time value of the date of a movement (0 for an invalid date). *)
Definition timeOf (m : Finance.Movement) : Z :=
  match Js.date_parse (Movement.date m) with
  | Some t => t
  | None => 0
  end.

(** The tie rule as the specification of the sales table words it:
    movements of one date come out in the reverse of their order in the
    ledger. *)
Definition ties_reverse_append_order (range : DateRange.t)
    (ms out : list Finance.Movement) : Prop :=
  forall t, filter (fun m => timeOf m =? t) out
            = rev (filter (fun m => timeOf m =? t) (salesInRange range ms)).

End Aggregates.
End Spec.

(** ** Sample data *)

Module Sample.

Definition item (id : Z) (name : string) (unit_price : float) : StockItem.t :=
  {| StockItem.id := id;
     StockItem.reference := "REF-" ++ name;
     StockItem.name := name;
     StockItem.quantity := 20;
     StockItem.unit_price := unit_price;
     StockItem.total_value := (unit_price * 20)%float |}.

Definition soldAt {S} (id : Z) (date : string) (quantity : Z)
    (discount_percent : float) (stock_id : Z) (stock : S) : Movement.t S :=
  {| Movement.id := id;
     Movement.date := date;
     Movement.stock_id := stock_id;
     Movement.movement_type := sale;
     Movement.quantity := quantity;
     Movement.discount_percent := discount_percent;
     Movement.stock := stock |}.

Definition itemA : StockItem.t := item 1 "A" 100.
Definition itemB : StockItem.t := item 2 "B" 100.

(** Two sales of the same instant, A (5 units) recorded before B (8). *)
Definition saleA5 : Finance.Movement :=
  soldAt 1 "2024-03-01T10:00:00" 5 0 1 itemA.
Definition saleB8 : Finance.Movement :=
  soldAt 2 "2024-03-01T10:00:00" 8 0 2 itemB.

(** Two sales of A: 2^53 units, then one more. *)
Definition saleA2p53 : Finance.Movement :=
  soldAt 6 "2024-03-02T10:00:00" 9007199254740992 0 1 itemA.
Definition saleA1 : Finance.Movement :=
  soldAt 7 "2024-03-02T11:00:00" 1 0 1 itemA.

(** A sale whose payload carries no item. *)
Definition orphanSale : Runtime.JsonMovement :=
  soldAt 3 "2024-03-01T10:00:00" 1 0 9 None.

Definition march : DateRange.t :=
  {| DateRange.startDate := "2024-03-01"; DateRange.endDate := "2024-03-31" |}.

(** 2024-03-15T00:00:00Z. *)
Definition midMarch : Z := 1710460800000.

End Sample.

(** ** More of the JavaScript side: numbers and strings *)

Module JsNumber.

(** [ToBoolean] of a number: [+0], [-0] and NaN are falsy. *)
Definition truthy (x : float) : bool :=
  negb (PrimFloat.eqb x 0 || PrimFloat.is_nan x).

(** [x || 0] on a number. *)
Definition orZero (x : float) : float := if truthy x then x else 0%float.

(** The place of a binary64 number in the order of the numbers: an
    integer that grows with the number, the same for [+0] and [-0].  For a
    finite number of mantissa [m] and exponent [e] (a canonical pair, so
    [m < 2^53], and [2^52 <= m] unless [e] is the least exponent) the
    exponent counts first. *)
Definition rankSF (x : spec_float) : Z :=
  match x with
  | S754_zero _ => 0
  | S754_nan => 0
  | S754_infinity s => if s then - 2 ^ 65 else 2 ^ 65
  | S754_finite s m e =>
      if s then - ((e + 1075) * 2 ^ 53 + Zpos m)
      else (e + 1075) * 2 ^ 53 + Zpos m
  end.

Definition rank (x : float) : Z := rankSF (Prim2SF x).

Definition notNaN (x : spec_float) : bool :=
  match x with S754_nan => false | _ => true end.

(** A number above zero. *)
Definition positiveSF (x : spec_float) : bool :=
  match x with
  | S754_finite false _ _ | S754_infinity false => true
  | _ => false
  end.

(** A number that is not below zero: a zero, or a number above zero. *)
Definition nonnegSF (x : spec_float) : bool :=
  match x with
  | S754_zero _ | S754_finite false _ _ | S754_infinity false => true
  | _ => false
  end.

(** [m * 2^e] written with the mantissa [M] and the exponent [E]. *)
Definition sameValue (m : positive) (e : Z) (M : positive) (E : Z) : Prop :=
  (E <= e /\ Zpos M = Zpos m * 2 ^ (e - E))
  \/ (e <= E /\ Zpos m = Zpos M * 2 ^ (E - e)).

(** [Number.MAX_SAFE_INTEGER], 2^53 - 1. *)
Definition MAX_SAFE_INTEGER : Z := 9007199254740991.

End JsNumber.

Module JsString.

(** [String.prototype.trim] and [String.prototype.toLowerCase] follow the
    Unicode tables of the host. *)
Class StringHost : Type := {
  trim : string -> string;
  toLowerCase : string -> string
}.

(** [s.includes (q)]: [q] occurs in [s] at some position. *)
Fixpoint includes (s q : string) : bool :=
  String.prefix q s
  || match s with
     | EmptyString => false
     | String _ s' => includes s' q
     end.

(** A host for closed examples, whose texts hold ASCII letters, digits,
    hyphens and spaces only: the letters [A-Z] are lowered and the spaces
    at both ends are trimmed. *)
Definition lowerAscii (c : ascii) : ascii :=
  let n := nat_of_ascii c in
  if (Nat.leb 65 n && Nat.leb n 90)%bool then ascii_of_nat (n + 32) else c.

Fixpoint mapString (f : ascii -> ascii) (s : string) : string :=
  match s with
  | EmptyString => EmptyString
  | String c s' => String (f c) (mapString f s')
  end.

Fixpoint trimStart (s : string) : string :=
  match s with
  | String " "%char s' => trimStart s'
  | _ => s
  end.

Fixpoint reverse (acc s : string) : string :=
  match s with
  | EmptyString => acc
  | String c s' => reverse (String c acc) s'
  end.

Definition trimSpaces (s : string) : string :=
  reverse EmptyString (trimStart (reverse EmptyString (trimStart s))).

Definition asciiHost : StringHost :=
  {| trim := trimSpaces; toLowerCase := mapString lowerAscii |}.

End JsString.

(** ** The stock page: [filteredStocks] and [summary] *)

Module StockSummary.
Record t : Type := { totalItems : Z; totalValue : float; lowStock : Z }.
End StockSummary.

Module StockPage.
Section Page.
Context {host : JsString.StringHost}.

(** The callback of the search filter. *)
Definition matches (q : string) (s : StockItem.t) : bool :=
  JsString.includes (JsString.toLowerCase (StockItem.reference s)) q
  || JsString.includes (JsString.toLowerCase (StockItem.name s)) q.

Definition filteredStocks (stocks : list StockItem.t) (search : string)
  : list StockItem.t :=
  let q := JsString.toLowerCase (JsString.trim search) in
  if String.eqb q "" then stocks
  else filter (matches q) stocks.

Definition summary (stocks : list StockItem.t) : StockSummary.t :=
  let totalItems := Z.of_nat (List.length stocks) in
  let totalValue :=
    fold_left (fun acc s =>
      (acc + JsNumber.orZero (StockItem.total_value s))%float)
      stocks 0%float in
  let lowStock :=
    Z.of_nat (List.length (filter (fun s => StockItem.quantity s <? 10) stocks)) in
  {| StockSummary.totalItems := totalItems;
     StockSummary.totalValue := totalValue;
     StockSummary.lowStock := lowStock |}.

End Page.
End StockPage.

(** ** The movements page: [summary] and [getStockById] *)

Module MovementSummary.
Record t : Type := { totalMovements : Z; purchases : Z; sales : Z }.
End MovementSummary.

Module MovementsPage.

Definition summary (movements : list Finance.Movement) : MovementSummary.t :=
  {| MovementSummary.totalMovements := Z.of_nat (List.length movements);
     MovementSummary.purchases :=
       Z.of_nat (List.length (filter Finance.isPurchase movements));
     MovementSummary.sales :=
       Z.of_nat (List.length (filter Finance.isSale movements)) |}.

(** [stocks.find (s => s.id === id)]: the first item of that id, or
    [undefined]. *)
Definition getStockById (stocks : list StockItem.t) (id : Z)
  : option StockItem.t :=
  find (fun s => StockItem.id s =? id) stocks.

End MovementsPage.

(** ** Values changed in one field, and what a call reads *)

Module Probe.

(** The movement [m] with its date replaced by [f m]. *)
Definition redate (f : Finance.Movement -> string) (m : Finance.Movement)
  : Finance.Movement :=
  {| Movement.id := Movement.id m;
     Movement.date := f m;
     Movement.stock_id := Movement.stock_id m;
     Movement.movement_type := Movement.movement_type m;
     Movement.quantity := Movement.quantity m;
     Movement.discount_percent := Movement.discount_percent m;
     Movement.stock := Movement.stock m |}.

(** The item [s] with a NaN total value replaced by 0. *)
Definition withoutNaN (s : StockItem.t) : StockItem.t :=
  {| StockItem.id := StockItem.id s;
     StockItem.reference := StockItem.reference s;
     StockItem.name := StockItem.name s;
     StockItem.quantity := StockItem.quantity s;
     StockItem.unit_price := StockItem.unit_price s;
     StockItem.total_value :=
       if PrimFloat.is_nan (StockItem.total_value s) then 0%float
       else StockItem.total_value s |}.

(** The payload carries no item. *)
Definition lacksStock (m : Movement.t (option StockItem.t)) : bool :=
  match Movement.stock m with
  | Some _ => false
  | None => true
  end.

(** The movements [calculateMetrics] reads the item of: the purchases, and
    the sales of the range or of the current month. *)
Definition readByMetrics {host : Js.DateHost} (range : DateRange.t) (now : Z)
    (m : Movement.t (option StockItem.t)) : bool :=
  Finance.isPurchase m
  || Finance.isSale m
     && (Finance.inDateRange range m || Finance.inCurrentMonth now m).

(** A sale of 2023 whose payload carries no item. *)
Definition oldOrphanSale : Runtime.JsonMovement :=
  Sample.soldAt 4 "2023-06-01T10:00:00" 1 0 9 None.

Definition february : DateRange.t :=
  {| DateRange.startDate := "2024-02-01"; DateRange.endDate := "2024-02-29" |}.

Definition inverted : DateRange.t :=
  {| DateRange.startDate := "2024-03-31"; DateRange.endDate := "2024-03-01" |}.

End Probe.

(** * Properties *)

(** ** Lists, folds and filters *)

Section ListFacts.
Context {A B : Type}.

Lemma fold_left_map (g : A -> B) (op : B -> B -> B) (l : list A) (b : B) :
  fold_left (fun acc x => op acc (g x)) l b = fold_left op (map g l) b.
Proof.
  revert b. induction l as [|x l IH]; intro b; simpl; [reflexivity|].
  apply IH.
Qed.

Lemma filter_filter (p q : A -> bool) (l : list A) :
  filter q (filter p l) = filter (fun x => p x && q x) l.
Proof.
  induction l as [|x l IH]; simpl; [reflexivity|].
  destruct (p x); simpl; [destruct (q x)|]; now rewrite IH.
Qed.

Lemma filter_snoc (p : A -> bool) (l : list A) (x : A) :
  filter p (l ++ [x]) = filter p l ++ (if p x then [x] else []).
Proof. rewrite filter_app. reflexivity. Qed.

End ListFacts.

(** ** The financial summary *)

Section FinanceFacts.
Context {host : Js.DateHost}.

Lemma inDateRange_spec (range : DateRange.t) (m : Finance.Movement) :
  Finance.inDateRange range m = Spec.date_in_rangeb range m.
Proof.
  unfold Finance.inDateRange, Spec.date_in_rangeb, Js.date_geb, Js.date_leb.
  destruct (Js.date_parse (Movement.date m)) as [t|]; [|reflexivity].
  destruct (Js.date_parse (DateRange.startDate range)) as [s|]; [|reflexivity].
  destruct (Js.date_parse (DateRange.endDate range)) as [e|]; simpl;
    [reflexivity | apply andb_false_r].
Qed.

Lemma date_in_rangeb_iff (range : DateRange.t) (m : Finance.Movement) :
  Spec.date_in_rangeb range m = true <-> Spec.date_in_range range m.
Proof.
  unfold Spec.date_in_rangeb, Spec.date_in_range. split.
  - destruct (Js.date_parse (Movement.date m)) as [t|]; [|discriminate].
    destruct (Js.date_parse (DateRange.startDate range)) as [s|]; [|discriminate].
    destruct (Js.date_parse (DateRange.endDate range)) as [e|]; [|discriminate].
    intro H. apply andb_true_iff in H. exists t, s, e. repeat split; auto; lia.
  - intros (t & s & e & -> & -> & -> & H). apply andb_true_iff. lia.
Qed.

Lemma inCurrentMonth_spec (now : Z) (m : Finance.Movement) :
  Finance.inCurrentMonth now m = Spec.date_in_monthb now m.
Proof.
  unfold Finance.inCurrentMonth, Spec.date_in_monthb, Js.field_eqb.
  destruct (Js.date_parse (Movement.date m)); reflexivity.
Qed.

Lemma filteredSales_spec (range : DateRange.t) (ms : list Finance.Movement) :
  filter (Finance.inDateRange range) (filter Finance.isSale ms)
  = Spec.salesInRange range ms.
Proof.
  rewrite filter_filter. unfold Spec.salesInRange. apply filter_ext.
  intro m. unfold Finance.isSale. now rewrite inDateRange_spec.
Qed.

Lemma salesInRange_In (range : DateRange.t) (ms : list Finance.Movement)
    (m : Finance.Movement) :
  In m (Spec.salesInRange range ms)
  <-> In m ms /\ Movement.movement_type m = sale /\ Spec.date_in_range range m.
Proof.
  unfold Spec.salesInRange. rewrite filter_In, andb_true_iff, date_in_rangeb_iff.
  assert (E : MovementType_eqb (Movement.movement_type m) sale = true
              <-> Movement.movement_type m = sale)
    by (destruct (Movement.movement_type m); simpl; split; congruence).
  rewrite E. tauto.
Qed.

Lemma totalRevenue_fold (l : list Finance.Movement) :
  fold_left (fun sum sale =>
    (sum + Finance.priceAfterDiscount sale
           * Js.of_Z (Movement.quantity sale))%float) l 0%float
  = Spec.sum (map Spec.line_total l).
Proof.
  unfold Spec.sum.
  exact (fold_left_map Spec.line_total PrimFloat.add l 0%float).
Qed.

(** C2. Over any list of movements and any date range, [totalRevenue] is
    the sum, in ledger order, of [unit_price * (1 - discount_percent/100)
    * quantity] over the SALE movements whose date lies between the start
    and the end of the range, both included; the unit price is the one of
    the item carried by the movement when the summary is computed. *)
Theorem totalRevenue_is_sum_of_line_totals
    (ms : list Finance.Movement) (range : DateRange.t) (now : Z) :
  FinancialMetrics.totalRevenue (Finance.calculateMetrics ms range now)
  = Spec.sum
      (map (fun m =>
              (StockItem.unit_price (Movement.stock m)
               * (1 - Movement.discount_percent m / 100)
               * Js.of_Z (Movement.quantity m))%float)
           (Spec.salesInRange range ms))
  /\ forall m, In m (Spec.salesInRange range ms)
       <-> In m ms /\ Movement.movement_type m = sale
           /\ Spec.date_in_range range m.
Proof.
  split; [|intro m; apply salesInRange_In].
  unfold Finance.calculateMetrics. cbn [FinancialMetrics.totalRevenue].
  rewrite filteredSales_spec. apply totalRevenue_fold.
Qed.

(** C4. [netCashFlow] is the [totalRevenue] of the range minus the total
    purchase cost, the sum of [unit_price * quantity] over all PURCHASE
    movements, to which no date filter is applied. *)
Theorem netCashFlow_is_revenue_minus_all_purchases
    (ms : list Finance.Movement) (range : DateRange.t) (now : Z) :
  FinancialMetrics.netCashFlow (Finance.calculateMetrics ms range now)
  = (FinancialMetrics.totalRevenue (Finance.calculateMetrics ms range now)
     - Spec.sum
         (map (fun m => (StockItem.unit_price (Movement.stock m)
                         * Js.of_Z (Movement.quantity m))%float)
              (filter (fun m =>
                 MovementType_eqb (Movement.movement_type m) purchase) ms)))%float
  /\ FinancialMetrics.netCashFlow (Finance.calculateMetrics ms range now)
     = Spec.netCashFlow range ms.
Proof.
  assert (P : fold_left (fun sum p =>
                (sum + StockItem.unit_price (Movement.stock p)
                       * Js.of_Z (Movement.quantity p))%float)
                (filter Finance.isPurchase ms) 0%float
              = Spec.totalPurchaseCost ms).
  { unfold Spec.totalPurchaseCost, Spec.sum.
    exact (fold_left_map Spec.purchase_cost PrimFloat.add _ 0%float). }
  unfold Finance.calculateMetrics, Spec.netCashFlow, Spec.totalRevenue.
  cbn [FinancialMetrics.netCashFlow FinancialMetrics.totalRevenue].
  rewrite P, filteredSales_spec, totalRevenue_fold. split; reflexivity.
Qed.

(** C9. [averageDiscount] is the arithmetic mean of [discount_percent]
    over the SALE movements whose date lies in the range, and 0 when the
    range holds no SALE movement. *)
Theorem averageDiscount_is_mean
    (ms : list Finance.Movement) (range : DateRange.t) (now : Z) :
  FinancialMetrics.averageDiscount (Finance.calculateMetrics ms range now)
  = match Spec.salesInRange range ms with
    | [] => 0%float
    | _ :: _ =>
        (Spec.sum (map Movement.discount_percent (Spec.salesInRange range ms))
         / Js.of_Z (Z.of_nat (List.length (Spec.salesInRange range ms))))%float
    end.
Proof.
  unfold Finance.calculateMetrics. cbn [FinancialMetrics.averageDiscount].
  rewrite filteredSales_spec.
  destruct (Spec.salesInRange range ms) as [|m l] eqn:E; [reflexivity|].
  replace (Z.of_nat (List.length (m :: l)) >? 0) with true
    by (symmetry; apply Z.gtb_lt; simpl List.length; lia).
  unfold Spec.sum.
  now rewrite <- (fold_left_map Movement.discount_percent PrimFloat.add).
Qed.

(** C10. [monthlyRevenue] does not depend on the selected date range: it
    is the sum of the line totals of all SALE movements of the calendar
    month and year of the current date, whatever the range. *)
Theorem monthlyRevenue_independent_of_range
    (ms : list Finance.Movement) (range1 range2 : DateRange.t) (now : Z) :
  FinancialMetrics.monthlyRevenue (Finance.calculateMetrics ms range1 now)
  = FinancialMetrics.monthlyRevenue (Finance.calculateMetrics ms range2 now)
  /\ FinancialMetrics.monthlyRevenue (Finance.calculateMetrics ms range1 now)
     = Spec.monthlyRevenue now ms.
Proof.
  split; [reflexivity|].
  unfold Finance.calculateMetrics, Spec.monthlyRevenue.
  cbn [FinancialMetrics.monthlyRevenue].
  rewrite filter_filter, totalRevenue_fold. do 2 f_equal.
  apply filter_ext. intro m. unfold Finance.isSale.
  now rewrite inCurrentMonth_spec.
Qed.

End FinanceFacts.

(** The discount example of the specification: a sale of 3 units at unit
    price 100 with a discount of 10 percent counts for 100 * 0.9 * 3 = 270
    in a range that holds its date, and for nothing in another range. *)
Example discount_math :
  let s := Sample.soldAt 7 "2024-03-10T09:30:00" 3 10 1 Sample.itemA in
  FinancialMetrics.totalRevenue
    (@Finance.calculateMetrics Js.utcHost [s] Sample.march Sample.midMarch)
  = 270%float
  /\ FinancialMetrics.totalRevenue
       (@Finance.calculateMetrics Js.utcHost [s]
          {| DateRange.startDate := "2024-04-01";
             DateRange.endDate := "2024-04-30" |} Sample.midMarch)
     = 0%float.
Proof. vm_compute. split; reflexivity. Qed.

(** A discount of 100 percent gives a price of 0, a discount of 0 the full
    price. *)
Example discount_boundaries :
  Finance.priceAfterDiscount
    (Sample.soldAt 8 "2024-03-10T09:30:00" 1 100 1 Sample.itemA) = 0%float
  /\ Finance.priceAfterDiscount
       (Sample.soldAt 9 "2024-03-10T09:30:00" 1 0 1 Sample.itemA) = 100%float.
Proof. vm_compute. split; reflexivity. Qed.

(** The ends of the range are the time values of [new Date(startDate)] and
    [new Date(endDate)], the midnights that open the two days: a sale of
    the first instant of the end day is counted, a sale later on that day
    is not. *)
Example range_ends_at_midnight_of_endDate :
  map Movement.id
    (@Spec.salesInRange Js.utcHost Sample.march
       [Sample.soldAt 10 "2024-03-31T00:00:00" 1 0 1 Sample.itemA;
        Sample.soldAt 11 "2024-03-31T10:00:00" 1 0 1 Sample.itemA])
  = [10].
Proof. vm_compute. reflexivity. Qed.

(** ** [Array.prototype.sort] with a comparator that orders by a key *)

Section SortFacts.
Context {A : Type} (comparefn : A -> A -> Z) (key : A -> Z).

Local Abbreviation orders_desc := (Js.orders_desc comparefn key).

Lemma insert_perm (x : A) (l : list A) :
  Permutation (Js.insert comparefn x l) (x :: l).
Proof.
  induction l as [|y l IH]; simpl; [reflexivity|].
  destruct (0 <? comparefn x y); [|reflexivity].
  rewrite IH. apply perm_swap.
Qed.

Lemma sort_perm (l : list A) : Permutation (Js.sort comparefn l) l.
Proof.
  induction l as [|x l IH]; simpl; [reflexivity|].
  rewrite insert_perm. now constructor.
Qed.

Lemma orders_desc_incl (l l' : list A) :
  (forall x, In x l' -> In x l) -> orders_desc l -> orders_desc l'.
Proof. intros Hin H x y Hx Hy. apply H; auto. Qed.

Lemma insert_sorted (x : A) (l : list A) :
  orders_desc (x :: l) ->
  StronglySorted (fun a b => key b <= key a) l ->
  StronglySorted (fun a b => key b <= key a) (Js.insert comparefn x l).
Proof.
  intros Hc Hs. induction Hs as [|y l Hs IH Hy]; simpl.
  - repeat constructor.
  - rewrite (Hc x y) by (simpl; auto).
    destruct (key x <? key y) eqn:E.
    + apply Z.ltb_lt in E. constructor.
      * apply IH. eapply orders_desc_incl; [|exact Hc].
        simpl. intros z [->|Hz]; auto.
      * rewrite Forall_forall. intros z Hz.
        apply (Permutation_in _ (insert_perm x l)) in Hz.
        destruct Hz as [<-|Hz]; [lia|].
        rewrite Forall_forall in Hy. now apply Hy.
    + apply Z.ltb_ge in E. constructor.
      * now constructor.
      * constructor; [exact E|].
        rewrite Forall_forall in Hy |- *. intros z Hz.
        specialize (Hy z Hz). lia.
Qed.

Lemma insert_stable (x : A) (l : list A) (k : Z) :
  orders_desc (x :: l) ->
  filter (fun a => key a =? k) (Js.insert comparefn x l)
  = filter (fun a => key a =? k) (x :: l).
Proof.
  intro Hc. induction l as [|y l IH]; [reflexivity|].
  simpl Js.insert. rewrite (Hc x y) by (simpl; auto).
  destruct (key x <? key y) eqn:E; [|reflexivity].
  apply Z.ltb_lt in E.
  assert (IH' : filter (fun a => key a =? k) (Js.insert comparefn x l)
                = filter (fun a => key a =? k) (x :: l)).
  { apply IH. eapply orders_desc_incl; [|exact Hc].
    simpl. intros z [->|Hz]; auto. }
  cbn [filter] in IH' |- *. rewrite IH'.
  destruct (key x =? k) eqn:Ex, (key y =? k) eqn:Ey; try reflexivity.
  apply Z.eqb_eq in Ex, Ey. lia.
Qed.

Lemma sort_stable_sorted_desc (l : list A) :
  orders_desc l -> Spec.stable_sorted_desc key l (Js.sort comparefn l).
Proof.
  unfold Spec.stable_sorted_desc. intro Hc.
  split; [apply sort_perm|].
  induction l as [|x l IH]; simpl.
  - split; [constructor | reflexivity].
  - assert (Hl : orders_desc l)
      by (eapply orders_desc_incl; [|exact Hc]; simpl; auto).
    destruct (IH Hl) as [Hs Hk].
    assert (Hx : orders_desc (x :: Js.sort comparefn l)).
    { eapply orders_desc_incl; [|exact Hc].
      simpl. intros z [->|Hz]; auto.
      right. exact (Permutation_in _ (sort_perm l) Hz). }
    split.
    + now apply insert_sorted.
    + intro k. rewrite insert_stable by exact Hx.
      cbn [filter]. now rewrite Hk.
Qed.

(** The choice of the sorting algorithm does not matter: a list sorted in
    descending order of the key is determined by the order inside each
    class of equal keys, so every stable sort returns what [Js.sort]
    returns. *)
Lemma filter_key_nil (l : list A) :
  (forall k, filter (fun x => key x =? k) l = []) -> l = [].
Proof.
  destruct l as [|y l]; [reflexivity|].
  intro H. specialize (H (key y)). simpl in H.
  rewrite Z.eqb_refl in H. discriminate.
Qed.

Lemma sorted_head_max (x : A) (l : list A) (y : A) :
  StronglySorted (fun a b => key b <= key a) (x :: l) ->
  In y (x :: l) -> key y <= key x.
Proof.
  intros Hs [<-|Hy]; [lia|].
  inversion_clear Hs as [|? ? _ Hx]. rewrite Forall_forall in Hx. auto.
Qed.

Lemma sorted_by_classes (o1 : list A) :
  forall o2,
  StronglySorted (fun a b => key b <= key a) o1 ->
  StronglySorted (fun a b => key b <= key a) o2 ->
  (forall k, filter (fun x => key x =? k) o1
             = filter (fun x => key x =? k) o2) ->
  o1 = o2.
Proof.
  induction o1 as [|x o1 IH]; intros o2 S1 S2 H.
  - symmetry. apply filter_key_nil. intro k. now rewrite <- H.
  - destruct o2 as [|y o2].
    + apply filter_key_nil. intro k. now rewrite H.
    + assert (Hx : In x (y :: o2)).
      { assert (I : In x (filter (fun z => key z =? key x) (y :: o2))).
        { rewrite <- H. cbn [filter]. rewrite Z.eqb_refl. now left. }
        now apply filter_In in I. }
      assert (Hy : In y (x :: o1)).
      { assert (I : In y (filter (fun z => key z =? key y) (x :: o1))).
        { rewrite H. cbn [filter]. rewrite Z.eqb_refl. now left. }
        now apply filter_In in I. }
      assert (K : key x = key y).
      { pose proof (sorted_head_max _ _ _ S2 Hx).
        pose proof (sorted_head_max _ _ _ S1 Hy). lia. }
      pose proof (H (key x)) as E. cbn [filter] in E.
      rewrite <- K, Z.eqb_refl in E. injection E as <- E.
      f_equal. apply IH.
      * now inversion S1.
      * now inversion S2.
      * intro k. specialize (H k). cbn [filter] in H.
        destruct (key x =? k); [now injection H | exact H].
Qed.

Lemma stable_sort_unique (l out : list A) :
  orders_desc l -> Spec.stable_sorted_desc key l out ->
  out = Js.sort comparefn l.
Proof.
  intros Hc (_ & S1 & K1).
  destruct (sort_stable_sorted_desc l Hc) as (_ & S2 & K2).
  apply sorted_by_classes; auto. intro k. now rewrite K1, K2.
Qed.

Lemma insert_map {B} (f : B -> A) (comparefn' : B -> B -> Z) (x : B)
    (l : list B) :
  (forall a b, comparefn (f a) (f b) = comparefn' a b) ->
  Js.insert comparefn (f x) (map f l) = map f (Js.insert comparefn' x l).
Proof.
  intro H. induction l as [|y l IH]; simpl; [reflexivity|].
  rewrite H. destruct (0 <? comparefn' x y); simpl; now rewrite ?IH.
Qed.

Lemma sort_map {B} (f : B -> A) (comparefn' : B -> B -> Z) (l : list B) :
  (forall a b, comparefn (f a) (f b) = comparefn' a b) ->
  Js.sort comparefn (map f l) = map f (Js.sort comparefn' l).
Proof.
  intro H. induction l as [|x l IH]; simpl; [reflexivity|].
  rewrite IH. now apply insert_map.
Qed.

End SortFacts.

(** ** The sales table *)

Section SalesTableFacts.
Context {host : Js.DateHost}.

Lemma byDateDesc_orders (range : DateRange.t) (ms : list Finance.Movement) :
  Js.orders_desc Finance.byDateDesc Spec.timeOf (Spec.salesInRange range ms).
Proof.
  intros x y Hx Hy.
  apply salesInRange_In in Hx, Hy.
  destruct Hx as (_ & _ & tx & _ & _ & Ex & _).
  destruct Hy as (_ & _ & ty & _ & _ & Ey & _).
  unfold Finance.byDateDesc, Spec.timeOf. rewrite Ex, Ey.
  destruct (Z.ltb_spec 0 (ty - tx)), (Z.ltb_spec tx ty); try reflexivity; lia.
Qed.

(** C6, as the code has it. [getSalesForTable] returns exactly the SALE
    movements whose date lies in the range, in descending order of date;
    movements of equal date keep the order they have in the [movements]
    array (the sort is stable).  They come out most recently appended
    first when the array lists the ledger in reverse order. *)
Theorem salesTable_sorted_desc_stable
    (ms : list Finance.Movement) (range : DateRange.t) :
  Spec.stable_sorted_desc Spec.timeOf
    (Spec.salesInRange range ms) (Finance.getSalesForTable ms range)
  /\ (forall m, In m (Finance.getSalesForTable ms range)
        <-> In m ms /\ Movement.movement_type m = sale
            /\ Spec.date_in_range range m)
  /\ (forall ledger, ms = rev ledger ->
        Spec.ties_reverse_append_order range ledger
          (Finance.getSalesForTable ms range)).
Proof.
  unfold Finance.getSalesForTable. rewrite filteredSales_spec.
  pose proof (sort_stable_sorted_desc _ _ _ (byDateDesc_orders range ms)) as H.
  split; [exact H|]. destruct H as (P & _ & K). split.
  - intro m. rewrite <- salesInRange_In.
    split; apply Permutation_in; [exact P | symmetry; exact P].
  - intros ledger -> t. rewrite K. unfold Spec.salesInRange.
    now rewrite !filter_rev.
Qed.

End SalesTableFacts.

(** C6, as stated, fails: two sales of one instant, the second appended
    after the first, come out in the order of the array and not most
    recent first. *)
Lemma salesTable_ties_not_reversed :
  @Finance.getSalesForTable Js.utcHost [Sample.saleA5; Sample.saleB8] Sample.march
  = [Sample.saleA5; Sample.saleB8]
  /\ ~ @Spec.ties_reverse_append_order Js.utcHost Sample.march
         [Sample.saleA5; Sample.saleB8]
         (@Finance.getSalesForTable Js.utcHost
            [Sample.saleA5; Sample.saleB8] Sample.march).
Proof.
  assert (E : @Finance.getSalesForTable Js.utcHost
                [Sample.saleA5; Sample.saleB8] Sample.march
              = [Sample.saleA5; Sample.saleB8]) by (vm_compute; reflexivity).
  split; [exact E|].
  rewrite E. intro H. specialize (H 1709287200000).
  vm_compute in H. discriminate H.
Qed.

(** ** The insertion-ordered map *)

Section MapFacts.
Context {V : Type}.

Lemma Map_get_present (f : string -> V) (ks : list string) (key : string) :
  In key ks -> Js.Map_get key (Js.tabulate f ks) = Some (f key).
Proof.
  induction ks as [|k ks IH]; simpl; [tauto|].
  intros H. destruct (String.eqb_spec k key) as [->|N]; [reflexivity|].
  destruct H as [H|H]; [contradiction | auto].
Qed.

Lemma Map_get_absent (f : string -> V) (ks : list string) (key : string) :
  ~ In key ks -> Js.Map_get key (Js.tabulate f ks) = None.
Proof.
  induction ks as [|k ks IH]; simpl; [reflexivity|].
  intros H. destruct (String.eqb_spec k key) as [->|N]; [tauto|].
  apply IH. tauto.
Qed.

Lemma Map_set_present (f g : string -> V) (ks : list string) (key : string) :
  NoDup ks -> In key ks -> (forall n, n <> key -> g n = f n) ->
  Js.Map_set key (g key) (Js.tabulate f ks) = Js.tabulate g ks.
Proof.
  intros Hnd Hin Hfg. induction Hnd as [|k ks Hk Hnd IH]; [contradiction|].
  simpl. destruct (String.eqb_spec k key) as [->|N].
  - f_equal. symmetry. apply map_ext_in. intros n Hn.
    rewrite Hfg; [reflexivity|]. intros ->. contradiction.
  - rewrite (Hfg k N). f_equal. apply IH.
    destruct Hin as [H|H]; [contradiction | exact H].
Qed.

Lemma Map_set_absent (f g : string -> V) (ks : list string) (key : string) :
  ~ In key ks -> (forall n, n <> key -> g n = f n) ->
  Js.Map_set key (g key) (Js.tabulate f ks) = Js.tabulate g (ks ++ [key]).
Proof.
  intros Hin Hfg. induction ks as [|k ks IH]; [reflexivity|].
  simpl. destruct (String.eqb_spec k key) as [->|N]; [simpl in Hin; tauto|].
  rewrite (Hfg k N). f_equal. apply IH. simpl in Hin. tauto.
Qed.

End MapFacts.

(** ** Names in order of first appearance *)

Lemma In_distinct (l : list string) (x : string) :
  In x (Spec.distinct l) <-> In x l.
Proof.
  induction l as [|n l IH]; simpl; [tauto|].
  rewrite filter_In, IH.
  destruct (String.eqb_spec x n) as [->|N]; simpl; [tauto|].
  split; [tauto|]. intros [E|H]; [congruence | auto].
Qed.

Lemma NoDup_distinct (l : list string) : NoDup (Spec.distinct l).
Proof.
  induction l as [|n l IH]; simpl; constructor.
  - rewrite filter_In, String.eqb_refl. simpl. intros [_ H]. discriminate.
  - now apply NoDup_filter.
Qed.

Lemma distinct_snoc_new (l : list string) (x : string) :
  ~ In x l -> Spec.distinct (l ++ [x]) = Spec.distinct l ++ [x].
Proof.
  induction l as [|n l IH]; simpl; [reflexivity|].
  intros H. f_equal. rewrite IH by tauto.
  rewrite filter_app. simpl.
  destruct (String.eqb_spec x n) as [->|N]; [tauto | reflexivity].
Qed.

Lemma distinct_snoc_seen (l : list string) (x : string) :
  In x l -> Spec.distinct (l ++ [x]) = Spec.distinct l.
Proof.
  induction l as [|n l IH]; simpl; [tauto|].
  intros H. f_equal. destruct (in_dec string_dec x l) as [Hi|Hn].
  - now rewrite IH.
  - destruct H as [->|H]; [|contradiction].
    rewrite distinct_snoc_new by exact Hn.
    rewrite filter_app. simpl. rewrite String.eqb_refl. simpl.
    apply app_nil_r.
Qed.

(** ** Binary64 numbers: order, rounding, exact sums

    [JsNumber.rank] orders the numbers that are not NaN exactly as [<],
    [<=] and [==] do, and a difference [y - x] is above zero exactly when
    [x < y]: rounding moves a difference that is not zero to a number of
    the same sign, never to zero.  Rounding gives a number of the format,
    so [Js.of_Z] is read back as the rounded integer; a sum of numbers
    that are not below zero is not NaN; and the doubles of two integers
    that are not negative add up exactly while the sum stays below 2^53. *)

Section Binary64Facts.
Import JsNumber.

Lemma digits2_pos_upper (m : positive) : Zpos m < 2 ^ Zpos (digits2_pos m).
Proof.
  induction m as [m IH|m IH|]; simpl digits2_pos;
    rewrite ?Pos2Z.inj_succ, ?Z.pow_succ_r by lia; lia.
Qed.

Lemma digits2_pos_lower (m : positive) : 2 ^ (Zpos (digits2_pos m) - 1) <= Zpos m.
Proof.
  induction m as [m IH|m IH|]; simpl digits2_pos;
    rewrite ?Pos2Z.inj_succ;
    try (replace (Z.succ (Zpos (digits2_pos m)) - 1)
           with (Z.succ (Zpos (digits2_pos m) - 1)) by lia;
         rewrite Z.pow_succ_r by lia); try lia.
Qed.

(** What validity says of a finite binary64 number. *)
Lemma valid_finite (s : bool) (m : positive) (e : Z) :
  valid_binary (S754_finite s m e) = true ->
  -1074 <= e <= 971
  /\ Zpos m < 2 ^ 53
  /\ (-1074 < e -> 2 ^ 52 <= Zpos m).
Proof.
  unfold SpecFloat.valid_binary, bounded, canonical_mantissa, fexp, SpecFloat.emin, prec, emax.
  intro H. apply andb_true_iff in H. destruct H as [H1 H2].
  apply Z.eqb_eq in H1. apply Z.leb_le in H2.
  pose proof (digits2_pos_upper m) as U.
  pose proof (digits2_pos_lower m) as L.
  split; [lia|]. split.
  - assert (Zpos (digits2_pos m) <= 53) by lia.
    apply Z.lt_le_trans with (1 := U). apply Z.pow_le_mono_r; lia.
  - intro He. assert (E : Zpos (digits2_pos m) = 53) by lia.
    rewrite E in L. exact L.
Qed.

Lemma rank_finite_bounds (s : bool) (m : positive) (e : Z) :
  valid_binary (S754_finite s m e) = true ->
  0 < (e + 1075) * 2 ^ 53 + Zpos m < 2 ^ 65.
Proof.
  intro V. apply valid_finite in V. destruct V as (He & Hm & _).
  change (2 ^ 53) with 9007199254740992 in *.
  change (2 ^ 65) with 36893488147419103232. lia.
Qed.

Lemma SFcompare_rank (x y : spec_float) :
  valid_binary x = true -> valid_binary y = true ->
  notNaN x = true -> notNaN y = true ->
  SFcompare x y = Some (rankSF x ?= rankSF y).
Proof.
  intros Vx Vy Nx Ny.
  destruct x as [sx|sx| |sx mx ex], y as [sy|sy| |sy my ey];
    try discriminate; clear Nx Ny;
    try (pose proof (rank_finite_bounds _ _ _ Vx) as Bx);
    try (pose proof (rank_finite_bounds _ _ _ Vy) as By).
  1-8: unfold SFcompare, rankSF; change (2 ^ 65) with 36893488147419103232 in *;
    try destruct sx; try destruct sy; f_equal; symmetry;
    first [ apply Z.compare_gt_iff; lia
          | apply Z.compare_lt_iff; lia
          | apply Z.compare_eq_iff; lia ].
  - apply valid_finite in Vx, Vy.
    destruct Vx as (Hex & Hmx & _), Vy as (Hey & Hmy & _).
    unfold SFcompare, rankSF. change (2 ^ 53) with 9007199254740992 in *.
    destruct sx, sy; f_equal;
      destruct (Z.compare_spec ex ey) as [->|L|G];
      rewrite ?Pos.compare_cont_spec; cbn [Pos.switch_Eq];
      try destruct (Pos.compare_spec mx my) as [->|Lm|Gm];
      cbn [CompOpp]; symmetry;
      first [ apply Z.compare_gt_iff; lia
            | apply Z.compare_lt_iff; lia
            | apply Z.compare_eq_iff; lia ].
Qed.

(** *** Rounding a positive mantissa gives a positive number *)

Lemma shr_1_digits (mrs : shr_record) :
  0 <= shr_m mrs ->
  0 <= shr_m (shr_1 mrs)
  /\ Zdigits2 (shr_m (shr_1 mrs)) = Z.max 0 (Zdigits2 (shr_m mrs) - 1).
Proof.
  destruct mrs as [m r s]. cbn [shr_m]. intro H.
  destruct m as [|[p|p|]|p]; cbn [shr_1 shr_m Zdigits2 digits2_pos];
    rewrite ?Pos2Z.inj_succ; lia.
Qed.

Lemma iter_shr_1_digits (p : positive) :
  forall mrs, 0 <= shr_m mrs ->
  0 <= shr_m (SpecFloat.iter_pos shr_1 p mrs)
  /\ Zdigits2 (shr_m (SpecFloat.iter_pos shr_1 p mrs))
     = Z.max 0 (Zdigits2 (shr_m mrs) - Zpos p).
Proof.
  induction p as [p IH|p IH|]; intros mrs H; cbn [SpecFloat.iter_pos].
  - destruct (shr_1_digits mrs H) as [H1 E1].
    destruct (IH _ H1) as [H2 E2]. destruct (IH _ H2) as [H3 E3].
    split; [exact H3|]. rewrite E3, E2, E1. lia.
  - destruct (IH _ H) as [H2 E2]. destruct (IH _ H2) as [H3 E3].
    split; [exact H3|]. rewrite E3, E2. lia.
  - destruct (shr_1_digits mrs H) as [H1 E1]. split; [exact H1|].
    rewrite E1. lia.
Qed.

Lemma Zdigits2_pos (z : Z) : 0 <= z -> 0 < Zdigits2 z -> exists m, z = Zpos m.
Proof. destruct z as [|m|m]; simpl; intros; try lia. now exists m. Qed.

Lemma shr_fexp_positive (m : positive) (e : Z) (l : location) :
  -1074 <= e ->
  exists m', shr_m (fst (shr_fexp prec emax (Zpos m) e l)) = Zpos m'
             /\ -1074 <= snd (shr_fexp prec emax (Zpos m) e l).
Proof.
  intro He. unfold shr_fexp, shr, fexp, SpecFloat.emin, prec, emax.
  cbn [Zdigits2].
  destruct (Z.max (Zpos (digits2_pos m) + e - 53) (3 - 1024 - 53) - e)
    as [|p|p] eqn:E.
  - exists m. destruct l as [|[]]; simpl; auto.
  - cbn [fst snd].
    assert (S0 : 0 <= shr_m (shr_record_of_loc (Zpos m) l))
      by (destruct l as [|[]]; simpl; lia).
    assert (D0 : Zdigits2 (shr_m (shr_record_of_loc (Zpos m) l))
                 = Zpos (digits2_pos m))
      by (destruct l as [|[]]; reflexivity).
    destruct (iter_shr_1_digits p _ S0) as [H1 E1]. rewrite D0 in E1.
    destruct (Zdigits2_pos _ H1) as [m' Hm']; [lia|].
    exists m'. split; [exact Hm' | lia].
  - exists m. destruct l as [|[]]; simpl; auto.
Qed.

Lemma round_nearest_even_positive (m : positive) (l : location) :
  exists m', round_nearest_even (Zpos m) l = Zpos m'.
Proof.
  destruct l as [|[]]; cbn [round_nearest_even]; try (now exists m).
  - destruct (Z.even (Zpos m)); [now exists m | now exists (m + 1)%positive].
  - now exists (m + 1)%positive.
Qed.

Lemma binary_round_aux_positive (m : positive) (e : Z) (l : location) :
  -1074 <= e ->
  positiveSF (binary_round_aux prec emax false (Zpos m) e l) = true.
Proof.
  intro He. unfold binary_round_aux.
  destruct (shr_fexp_positive m e l He) as (m1 & E1 & He1).
  destruct (shr_fexp prec emax (Zpos m) e l) as [mrs1 e1].
  cbn [fst snd] in E1, He1. rewrite E1.
  destruct (round_nearest_even_positive m1 (loc_of_shr_record mrs1)) as [m2 ->].
  destruct (shr_fexp_positive m2 e1 loc_Exact He1) as (m3 & E3 & He3).
  destruct (shr_fexp prec emax (Zpos m2) e1 loc_Exact) as [mrs3 e3].
  cbn [fst snd] in E3, He3. rewrite E3.
  destruct (e3 <=? emax - prec); reflexivity.
Qed.

Lemma iter_xO_value (m d : positive) :
  Zpos (Pos.iter xO m d) = Zpos m * 2 ^ Zpos d.
Proof.
  induction d as [|d IH] using Pos.peano_ind.
  - simpl. lia.
  - rewrite Pos.iter_succ, Pos2Z.inj_succ, Z.pow_succ_r by lia.
    rewrite Pos2Z.inj_xO, IH. lia.
Qed.

Lemma shl_align_value (m : positive) (e e' : Z) :
  e' <= e ->
  Zpos (fst (shl_align m e e')) = Zpos m * 2 ^ (e - e')
  /\ snd (shl_align m e e') = e'.
Proof.
  intro H. unfold shl_align. destruct (e' - e) as [|d|d] eqn:E; cbn [fst snd].
  - replace (e - e') with 0 by lia. simpl. lia.
  - lia.
  - rewrite iter_xO_value. replace (e - e') with (Zpos d) by lia. lia.
Qed.

Lemma binary_round_positive (m : positive) (e : Z) :
  -1074 <= e -> positiveSF (binary_round prec emax false m e) = true.
Proof.
  intro He. unfold binary_round, shl_align.
  destruct (fexp prec emax (Zpos (digits2_pos m) + e) - e) as [|d|d] eqn:E;
    try (now apply binary_round_aux_positive).
  apply binary_round_aux_positive.
  unfold fexp, SpecFloat.emin, prec, emax. lia.
Qed.

Lemma binary_round_negative (m : positive) (e : Z) :
  SFltb (S754_zero false) (binary_round prec emax true m e) = false.
Proof.
  unfold binary_round, binary_round_aux.
  destruct (shl_align m e _) as [mz ez].
  destruct (shr_fexp prec emax (Zpos mz) ez loc_Exact) as [mrs1 e1].
  destruct (shr_fexp prec emax _ e1 loc_Exact) as [mrs2 e2].
  destruct (shr_m mrs2); [reflexivity| |reflexivity].
  destruct (e2 <=? emax - prec); reflexivity.
Qed.

Lemma positiveSF_ltb (x : spec_float) :
  positiveSF x = true -> SFltb (S754_zero false) x = true.
Proof. destruct x as [s|[]| |[] m e]; intro H; try discriminate H; reflexivity. Qed.

(** The aligned difference of two finite numbers has the sign of the
    difference of their ranks. *)
Lemma aligned_difference_sign (sx sy : bool) (mx my : positive) (ex ey : Z) :
  valid_binary (S754_finite sx mx ex) = true ->
  valid_binary (S754_finite sy my ey) = true ->
  let ez := Z.min ey ex in
  let D := cond_Zopp sy (Zpos (fst (shl_align my ey ez)))
           - cond_Zopp sx (Zpos (fst (shl_align mx ex ez))) in
  (0 < D <-> rankSF (S754_finite sx mx ex) < rankSF (S754_finite sy my ey))
  /\ (D = 0 <-> rankSF (S754_finite sx mx ex) = rankSF (S754_finite sy my ey)).
Proof.
  intros Vx Vy ez D. subst D.
  apply valid_finite in Vx, Vy.
  destruct Vx as (Hex & Hmx & Nx), Vy as (Hey & Hmy & Ny).
  destruct (shl_align_value mx ex ez) as [-> _]; [subst ez; lia|].
  destruct (shl_align_value my ey ez) as [-> _]; [subst ez; lia|].
  unfold rankSF. change (2 ^ 53) with 9007199254740992 in *.
  change (2 ^ 52) with 4503599627370496 in *.
  destruct (Z.lt_total ex ey) as [L|[E|G]].
  - replace ez with ex by (subst ez; lia). replace (ex - ex) with 0 by lia.
    change (2 ^ 0) with 1. rewrite Z.mul_1_r.
    assert (P : 2 <= 2 ^ (ey - ex)).
    { change 2 with (2 ^ 1) at 1. apply Z.pow_le_mono_r; lia. }
    assert (N : 4503599627370496 <= Zpos my) by (apply Ny; lia).
    assert (M : 2 * Zpos my <= Zpos my * 2 ^ (ey - ex)) by nia.
    destruct sx, sy; cbn [cond_Zopp]; lia.
  - subst ey. replace ez with ex by (subst ez; lia).
    replace (ex - ex) with 0 by lia. change (2 ^ 0) with 1.
    rewrite !Z.mul_1_r. destruct sx, sy; cbn [cond_Zopp]; lia.
  - replace ez with ey by (subst ez; lia). replace (ey - ey) with 0 by lia.
    change (2 ^ 0) with 1. rewrite Z.mul_1_r.
    assert (P : 2 <= 2 ^ (ex - ey)).
    { change 2 with (2 ^ 1) at 1. apply Z.pow_le_mono_r; lia. }
    assert (N : 4503599627370496 <= Zpos mx) by (apply Nx; lia).
    assert (M : 2 * Zpos mx <= Zpos mx * 2 ^ (ex - ey)) by nia.
    destruct sx, sy; cbn [cond_Zopp]; lia.
Qed.

(** [0 < y - x] exactly when [x < y], for numbers that are not NaN. *)
Lemma SFsub_sign (x y : spec_float) :
  valid_binary x = true -> valid_binary y = true ->
  notNaN x = true -> notNaN y = true ->
  SFltb (S754_zero false) (SFsub prec emax y x) = (rankSF x <? rankSF y).
Proof.
  intros Vx Vy Nx Ny.
  destruct x as [sx|sx| |sx mx ex], y as [sy|sy| |sy my ey];
    try discriminate; clear Nx Ny;
    try (pose proof (rank_finite_bounds _ _ _ Vx) as Bx);
    try (pose proof (rank_finite_bounds _ _ _ Vy) as By).
  1-8: unfold SFsub, rankSF, SFltb, SFcompare;
    change (2 ^ 65) with 36893488147419103232 in *;
    try destruct sx; try destruct sy; cbn [negb];
    symmetry;
    first [ apply Z.ltb_lt; lia | apply Z.ltb_ge; lia ].
  destruct (aligned_difference_sign sx sy mx my ex ey Vx Vy) as [Hp Hz].
  cbv zeta in Hp, Hz. unfold SFsub.
  assert (Hez : -1074 <= Z.min ey ex).
  { apply valid_finite in Vx, Vy. lia. }
  destruct (cond_Zopp sy (Zpos (fst (shl_align my ey (Z.min ey ex))))
            - cond_Zopp sx (Zpos (fst (shl_align mx ex (Z.min ey ex)))))
    as [|d|d]; cbn [binary_normalize].
  - symmetry. apply Z.ltb_ge. apply Z.eq_le_incl. symmetry. now apply Hz.
  - rewrite positiveSF_ltb by (now apply binary_round_positive).
    symmetry. apply Z.ltb_lt. apply Hp. lia.
  - rewrite binary_round_negative. symmetry. apply Z.ltb_ge.
    destruct (Z.lt_ge_cases (rankSF (S754_finite sx mx ex))
                (rankSF (S754_finite sy my ey))) as [L|G]; [|exact G].
    apply Hp in L. lia.
Qed.

Lemma is_nan_notNaN (x : float) : PrimFloat.is_nan x = negb (notNaN (Prim2SF x)).
Proof.
  unfold PrimFloat.is_nan. rewrite FloatAxioms.eqb_spec. unfold SFeqb.
  destruct (notNaN (Prim2SF x)) eqn:N.
  - rewrite (SFcompare_rank _ _ (Prim2SF_valid x) (Prim2SF_valid x) N N).
    now rewrite Z.compare_refl.
  - destruct (Prim2SF x); try discriminate. reflexivity.
Qed.

Lemma number_notNaN (x : float) :
  PrimFloat.is_nan x = false -> notNaN (Prim2SF x) = true.
Proof. rewrite is_nan_notNaN. now destruct (notNaN (Prim2SF x)). Qed.

Lemma compare_rank (x y : float) :
  PrimFloat.is_nan x = false -> PrimFloat.is_nan y = false ->
  SFcompare (Prim2SF x) (Prim2SF y) = Some (rank x ?= rank y).
Proof.
  intros Nx Ny.
  apply SFcompare_rank; auto using Prim2SF_valid, number_notNaN.
Qed.

Lemma ltb_rank (x y : float) :
  PrimFloat.is_nan x = false -> PrimFloat.is_nan y = false ->
  PrimFloat.ltb x y = (rank x <? rank y).
Proof.
  intros Nx Ny. rewrite FloatAxioms.ltb_spec. unfold SFltb, Z.ltb.
  rewrite (compare_rank x y Nx Ny). now destruct (rank x ?= rank y).
Qed.

Lemma leb_rank (x y : float) :
  PrimFloat.is_nan x = false -> PrimFloat.is_nan y = false ->
  PrimFloat.leb x y = (rank x <=? rank y).
Proof.
  intros Nx Ny. rewrite FloatAxioms.leb_spec. unfold SFleb, Z.leb.
  rewrite (compare_rank x y Nx Ny). now destruct (rank x ?= rank y).
Qed.

Lemma eqb_rank (x y : float) :
  PrimFloat.is_nan x = false -> PrimFloat.is_nan y = false ->
  PrimFloat.eqb x y = (rank x =? rank y).
Proof.
  intros Nx Ny. rewrite FloatAxioms.eqb_spec, Z.eqb_compare. unfold SFeqb.
  rewrite (compare_rank x y Nx Ny). now destruct (rank x ?= rank y).
Qed.

Lemma eqb_NaN_r (x q : float) :
  PrimFloat.is_nan q = true -> PrimFloat.eqb x q = false.
Proof.
  rewrite is_nan_notNaN, FloatAxioms.eqb_spec. intro N.
  destruct (Prim2SF q); try discriminate.
  unfold SFeqb. now destruct (Prim2SF x) as [?|[]| |[] ? ?].
Qed.

Lemma sub_sign (x y : float) :
  PrimFloat.is_nan x = false -> PrimFloat.is_nan y = false ->
  PrimFloat.ltb 0 (y - x) = (rank x <? rank y).
Proof.
  intros Nx Ny. rewrite FloatAxioms.ltb_spec, FloatAxioms.sub_spec.
  change (Prim2SF 0) with (S754_zero false).
  apply SFsub_sign; auto using Prim2SF_valid, number_notNaN.
Qed.

(** *** Rounding gives a number of the format *)

Lemma fexp_value (z : Z) : fexp prec emax z = Z.max (z - 53) (-1074).
Proof. reflexivity. Qed.

Lemma Zdigits2_nonneg (z : Z) : 0 <= Zdigits2 z.
Proof. destruct z; simpl; lia. Qed.

Lemma Zdigits2_mono (a b : Z) : 0 <= a <= b -> Zdigits2 a <= Zdigits2 b.
Proof.
  destruct a as [|a|a], b as [|b|b]; simpl; try lia. intros [_ H].
  pose proof (digits2_pos_lower a) as La.
  pose proof (digits2_pos_upper b) as Ub.
  assert (P : 2 ^ (Zpos (digits2_pos a) - 1) < 2 ^ Zpos (digits2_pos b)) by lia.
  apply Z.pow_lt_mono_r_iff in P; lia.
Qed.

Lemma shr_fexp_canonical (m e : Z) (l : location) :
  0 <= m -> e <= fexp prec emax (Zdigits2 m + e) ->
  0 <= shr_m (fst (shr_fexp prec emax m e l))
  /\ fexp prec emax (Zdigits2 (shr_m (fst (shr_fexp prec emax m e l)))
                     + snd (shr_fexp prec emax m e l))
     = snd (shr_fexp prec emax m e l).
Proof.
  intros Hm He. unfold shr_fexp, shr. rewrite fexp_value in *.
  assert (D0 : shr_m (shr_record_of_loc m l) = m)
    by (destruct l as [|[]]; reflexivity).
  pose proof (Zdigits2_nonneg m) as Hd.
  destruct (Z.max (Zdigits2 m + e - 53) (-1074) - e) as [|p|p] eqn:E;
    cbn [fst snd].
  - rewrite D0. split; [lia|]. rewrite fexp_value. lia.
  - destruct (iter_shr_1_digits p (shr_record_of_loc m l)) as [H1 E1];
      [lia|].
    rewrite D0 in E1. split; [exact H1|]. rewrite E1, fexp_value. lia.
  - lia.
Qed.

Lemma round_nearest_even_bounds (m : Z) (l : location) :
  m <= round_nearest_even m l <= m + 1.
Proof.
  destruct l as [|[]]; cbn [round_nearest_even]; try lia.
  destruct (Z.even m); lia.
Qed.

Lemma binary_round_aux_valid (s : bool) (m e : Z) (l : location) :
  0 <= m -> e <= fexp prec emax (Zdigits2 m + e) ->
  valid_binary (binary_round_aux prec emax s m e l) = true.
Proof.
  intros Hm He. unfold binary_round_aux.
  destruct (shr_fexp_canonical m e l Hm He) as [H1 C1].
  destruct (shr_fexp prec emax m e l) as [mrs1 e1]. cbn [fst snd] in *.
  set (m2 := round_nearest_even (shr_m mrs1) (loc_of_shr_record mrs1)).
  assert (B : shr_m mrs1 <= m2 <= shr_m mrs1 + 1)
    by apply round_nearest_even_bounds.
  assert (I2 : e1 <= fexp prec emax (Zdigits2 m2 + e1)).
  { pose proof (Zdigits2_mono (shr_m mrs1) m2) as M.
    rewrite fexp_value in *. lia. }
  destruct (shr_fexp_canonical m2 e1 loc_Exact) as [H3 C3]; [lia|exact I2|].
  destruct (shr_fexp prec emax m2 e1 loc_Exact) as [mrs3 e3].
  cbn [fst snd] in *.
  destruct (shr_m mrs3) as [|m3|m3]; try reflexivity.
  destruct (e3 <=? emax - prec) eqn:L; [|reflexivity].
  cbn [SpecFloat.valid_binary]. unfold bounded, canonical_mantissa.
  rewrite L, andb_true_r. apply Z.eqb_eq. exact C3.
Qed.

Lemma digits2_iter_xO (m k : positive) :
  Zpos (digits2_pos (Pos.iter xO m k)) = Zpos (digits2_pos m) + Zpos k.
Proof.
  induction k as [|k IH] using Pos.peano_ind.
  - cbn [Pos.iter digits2_pos]. lia.
  - rewrite Pos.iter_succ. cbn [digits2_pos]. lia.
Qed.

Lemma binary_round_valid (s : bool) (m : positive) (e : Z) :
  valid_binary (binary_round prec emax s m e) = true.
Proof.
  unfold binary_round, shl_align.
  destruct (fexp prec emax (Zpos (digits2_pos m) + e) - e) as [|d|d] eqn:E.
  - apply binary_round_aux_valid; [lia|]. cbn [Zdigits2]. lia.
  - apply binary_round_aux_valid; [lia|]. cbn [Zdigits2]. lia.
  - apply binary_round_aux_valid; [lia|]. cbn [Zdigits2].
    rewrite digits2_iter_xO.
    replace (Zpos (digits2_pos m) + Zpos d
             + fexp prec emax (Zpos (digits2_pos m) + e))
      with (Zpos (digits2_pos m) + e) by lia.
    lia.
Qed.

Lemma binary_normalize_valid (z e : Z) (s : bool) :
  valid_binary (binary_normalize prec emax z e s) = true.
Proof. destruct z; [reflexivity | |]; apply binary_round_valid. Qed.

(** *** Sums of numbers that are not below zero *)

Lemma positiveSF_nonneg (x : spec_float) : positiveSF x = true -> nonnegSF x = true.
Proof. now destruct x as [?|[]| |[] ? ?]. Qed.

Lemma SFadd_nonneg (x y : spec_float) :
  valid_binary x = true -> valid_binary y = true ->
  nonnegSF x = true -> nonnegSF y = true ->
  nonnegSF (SFadd prec emax x y) = true.
Proof.
  intros Vx Vy Nx Ny.
  destruct x as [sx|[]| |[] mx ex], y as [sy|[]| |[] my ey];
    try discriminate; try reflexivity.
  - now destruct sx, sy.
  - unfold SFadd. apply valid_finite in Vx, Vy.
    cbn [cond_Zopp binary_normalize Z.add].
    apply positiveSF_nonneg, binary_round_positive. lia.
Qed.

Lemma nonnegSF_notNaN (x : spec_float) : nonnegSF x = true -> notNaN x = true.
Proof. now destruct x. Qed.

(** *** Numbers that need no rounding *)

Lemma iter_pos_iter {A} (f : A -> A) (n : positive) (x : A) :
  SpecFloat.iter_pos f n x = Pos.iter f x n.
Proof.
  revert x. induction n as [n IH|n IH|]; intro x; cbn [SpecFloat.iter_pos Pos.iter].
  - rewrite !IH. now rewrite <- !Pos.iter_swap.
  - now rewrite !IH.
  - reflexivity.
Qed.

Lemma shr_exact (m n : positive) :
  SpecFloat.iter_pos shr_1 n
    {| shr_m := Zpos (Pos.iter xO m n); shr_r := false; shr_s := false |}
  = {| shr_m := Zpos m; shr_r := false; shr_s := false |}.
Proof.
  rewrite iter_pos_iter.
  induction n as [|n IH] using Pos.peano_ind.
  - reflexivity.
  - rewrite Pos.iter_succ_r, Pos.iter_succ. cbn [shr_1 orb]. exact IH.
Qed.

Lemma digits2_pos_unique (m : positive) (d : Z) :
  2 ^ (d - 1) <= Zpos m < 2 ^ d -> Zpos (digits2_pos m) = d.
Proof.
  intros [L U].
  pose proof (digits2_pos_lower m) as L'. pose proof (digits2_pos_upper m) as U'.
  assert (0 < d).
  { destruct (Z.lt_ge_cases 0 d) as [|G]; [assumption|].
    assert (2 ^ d <= 2 ^ 0) by (apply Z.pow_le_mono_r; lia).
    change (2 ^ 0) with 1 in *. lia. }
  assert (A : 2 ^ (d - 1) < 2 ^ Zpos (digits2_pos m)) by lia.
  assert (B : 2 ^ (Zpos (digits2_pos m) - 1) < 2 ^ d) by lia.
  apply Z.pow_lt_mono_r_iff in A; [|lia|lia].
  apply Z.pow_lt_mono_r_iff in B; lia.
Qed.

Lemma digits2_pos_shift (m M : positive) (k : Z) :
  0 <= k -> Zpos M = Zpos m * 2 ^ k ->
  Zpos (digits2_pos M) = Zpos (digits2_pos m) + k.
Proof.
  intros Hk E. apply digits2_pos_unique. rewrite E.
  pose proof (digits2_pos_lower m) as L. pose proof (digits2_pos_upper m) as U.
  replace (Zpos (digits2_pos m) + k - 1) with (Zpos (digits2_pos m) - 1 + k) by lia.
  rewrite !Z.pow_add_r by lia.
  assert (0 < 2 ^ k) by (apply Z.pow_pos_nonneg; lia).
  split; [apply Z.mul_le_mono_nonneg_r; lia | apply Z.mul_lt_mono_pos_r; lia].
Qed.

(** A mantissa of 53 bits followed by zeros is kept as it is. *)
Lemma binary_round_aux_exact (S M : positive) (e E : Z) :
  Zpos (digits2_pos M) = 53 -> -1074 <= E <= 971 -> e <= E ->
  Zpos S = Zpos M * 2 ^ (E - e) ->
  binary_round_aux prec emax false (Zpos S) e loc_Exact = S754_finite false M E.
Proof.
  intros D HE Le V.
  assert (DS : Zpos (digits2_pos S) = 53 + (E - e))
    by (rewrite <- D; apply digits2_pos_shift; [lia | exact V]).
  assert (R1 : shr_fexp prec emax (Zpos S) e loc_Exact
               = ({| shr_m := Zpos M; shr_r := false; shr_s := false |}, E)).
  { unfold shr_fexp, shr. rewrite fexp_value. cbn [Zdigits2 shr_record_of_loc].
    rewrite DS.
    replace (Z.max (53 + (E - e) + e - 53) (-1074) - e) with (E - e) by lia.
    destruct (E - e) as [|n|n] eqn:En; [| |lia].
    - change (2 ^ 0) with 1 in V. rewrite Z.mul_1_r in V.
      injection V as ->. f_equal. lia.
    - rewrite <- iter_xO_value in V. injection V as ->.
      rewrite shr_exact. f_equal. lia. }
  assert (R2 : shr_fexp prec emax (Zpos M) E loc_Exact
               = ({| shr_m := Zpos M; shr_r := false; shr_s := false |}, E)).
  { unfold shr_fexp, shr. rewrite fexp_value. cbn [Zdigits2 shr_record_of_loc].
    rewrite D. replace (Z.max (53 + E - 53) (-1074) - E) with 0 by lia.
    reflexivity. }
  unfold binary_round_aux. rewrite R1.
  cbn [shr_m loc_of_shr_record round_nearest_even]. rewrite R2. cbn [shr_m].
  replace (E <=? emax - prec) with true; [reflexivity|].
  symmetry. apply Z.leb_le. change (emax - prec) with 971. lia.
Qed.

Lemma binary_round_exact (m M : positive) (e E : Z) :
  Zpos (digits2_pos M) = 53 -> -1074 <= E <= 971 ->
  sameValue m e M E ->
  binary_round prec emax false m e = S754_finite false M E.
Proof.
  intros D HE [[Le V]|[Le V]]; unfold binary_round, shl_align.
  - assert (Dm : Zpos (digits2_pos m) + (e - E) = 53)
      by (rewrite <- D; symmetry; apply digits2_pos_shift; [lia | exact V]).
    rewrite fexp_value.
    replace (Z.max (Zpos (digits2_pos m) + e - 53) (-1074)) with E by lia.
    destruct (E - e) as [|d|d] eqn:Ed; [|lia|].
    + replace (e - E) with 0 in V by lia.
      change (2 ^ 0) with 1 in V. rewrite Z.mul_1_r in V. injection V as ->.
      replace e with E by lia.
      apply binary_round_aux_exact; auto; try lia.
      replace (E - E) with 0 by lia. change (2 ^ 0) with 1. lia.
    + replace (e - E) with (Zpos d) in V by lia.
      rewrite <- iter_xO_value in V. injection V as ->.
      apply binary_round_aux_exact; auto; try lia.
      replace (E - E) with 0 by lia. change (2 ^ 0) with 1. lia.
  - assert (Dm : Zpos (digits2_pos m) = 53 + (E - e))
      by (rewrite <- D; apply digits2_pos_shift; [lia | exact V]).
    rewrite fexp_value.
    replace (Z.max (Zpos (digits2_pos m) + e - 53) (-1074)) with E by lia.
    destruct (E - e) as [|d|d] eqn:Ed; [| |lia];
      apply binary_round_aux_exact; auto; try lia; now rewrite Ed.
Qed.

(** The double of an integer between 1 and 2^53 - 1: its bits, moved up
    to 53 places. *)
Lemma normalize_small (c : positive) :
  Zpos c < 2 ^ 53 ->
  exists M : positive,
    Zpos M = Zpos c * 2 ^ (53 - Zpos (digits2_pos c))
    /\ Zpos (digits2_pos c) <= 53
    /\ binary_normalize prec emax (Zpos c) 0 false
       = S754_finite false M (Zpos (digits2_pos c) - 53).
Proof.
  intro H. set (d := Zpos (digits2_pos c)).
  assert (Hd : d <= 53).
  { pose proof (digits2_pos_lower c) as L. fold d in L.
    assert (P : 2 ^ (d - 1) < 2 ^ 53) by lia.
    apply Z.pow_lt_mono_r_iff in P; lia. }
  assert (P : 0 < Zpos c * 2 ^ (53 - d)).
  { apply Z.mul_pos_pos; [lia|]. apply Z.pow_pos_nonneg; lia. }
  destruct (Zpos c * 2 ^ (53 - d)) as [|M|M] eqn:V; try lia.
  exists M. split; [reflexivity|]. split; [exact Hd|].
  cbn [binary_normalize]. apply binary_round_exact.
  - rewrite (digits2_pos_shift c M (53 - d)); [fold d; lia | lia | now rewrite V].
  - subst d. lia.
  - left. split; [lia|].
    transitivity (Zpos c * 2 ^ (53 - d)); [now rewrite V|].
    f_equal. f_equal. subst d. lia.
Qed.

Lemma SFadd_small (a b : positive) :
  Zpos a + Zpos b < 2 ^ 53 ->
  SFadd prec emax (binary_normalize prec emax (Zpos a) 0 false)
                  (binary_normalize prec emax (Zpos b) 0 false)
  = binary_normalize prec emax (Zpos a + Zpos b) 0 false.
Proof.
  intro H.
  destruct (normalize_small a) as (Ma & Va & Da & ->); [lia|].
  destruct (normalize_small b) as (Mb & Vb & Db & ->); [lia|].
  change (Zpos a + Zpos b) with (Zpos (a + b)) in *.
  destruct (normalize_small (a + b) H) as (Mc & Vc & Dc & ->).
  set (da := Zpos (digits2_pos a)) in *. set (db := Zpos (digits2_pos b)) in *.
  set (dc := Zpos (digits2_pos (a + b))) in *.
  assert (Hac : da <= dc).
  { apply (Zdigits2_mono (Zpos a) (Zpos (a + b))). lia. }
  assert (Hbc : db <= dc).
  { apply (Zdigits2_mono (Zpos b) (Zpos (a + b))). lia. }
  unfold SFadd. cbn [cond_Zopp].
  set (ez := Z.min (da - 53) (db - 53)).
  destruct (shl_align_value Ma (da - 53) ez) as [Sa _]; [subst ez; lia|].
  destruct (shl_align_value Mb (db - 53) ez) as [Sb _]; [subst ez; lia|].
  set (sa := fst (shl_align Ma (da - 53) ez)) in *.
  set (sb := fst (shl_align Mb (db - 53) ez)) in *.
  change (Zpos sa + Zpos sb) with (Zpos (sa + sb)).
  cbn [binary_normalize]. apply binary_round_exact.
  - rewrite (digits2_pos_shift (a + b) Mc (53 - dc)); [fold dc; lia | lia | exact Vc].
  - subst dc. lia.
  - right. split; [subst ez; lia|].
    rewrite Pos2Z.inj_add, Sa, Sb, Va, Vb, Vc, Pos2Z.inj_add.
    rewrite <- !Z.mul_assoc, <- !Z.pow_add_r by (subst ez; lia).
    replace (53 - da + (da - 53 - ez)) with (- ez) by lia.
    replace (53 - db + (db - 53 - ez)) with (- ez) by lia.
    replace (53 - dc + (dc - 53 - ez)) with (- ez) by lia.
    lia.
Qed.

Lemma SFadd_exact (a b : Z) :
  0 <= a -> 0 <= b -> a + b < 2 ^ 53 ->
  SFadd prec emax (binary_normalize prec emax a 0 false)
                  (binary_normalize prec emax b 0 false)
  = binary_normalize prec emax (a + b) 0 false.
Proof.
  intros Ha Hb H. destruct a as [|a|a], b as [|b|b]; try lia.
  - reflexivity.
  - destruct (normalize_small b) as (M & _ & _ & E); [lia|].
    cbn [Z.add]. now rewrite E.
  - destruct (normalize_small a) as (M & _ & _ & E); [lia|].
    cbn [Z.add]. now rewrite E.
  - now apply SFadd_small.
Qed.

(** *** The double of an integer *)

Lemma Prim2SF_of_Z (z : Z) :
  Prim2SF (Js.of_Z z) = binary_normalize prec emax z 0 false.
Proof. apply Prim2SF_SF2Prim, binary_normalize_valid. Qed.

Lemma of_Z_nonneg (z : Z) : 0 <= z -> nonnegSF (Prim2SF (Js.of_Z z)) = true.
Proof.
  intro H. rewrite Prim2SF_of_Z. destruct z as [|m|m]; [reflexivity| |lia].
  apply positiveSF_nonneg, binary_round_positive. lia.
Qed.

Lemma add_nonneg (x y : float) :
  nonnegSF (Prim2SF x) = true -> nonnegSF (Prim2SF y) = true ->
  nonnegSF (Prim2SF (x + y)) = true.
Proof.
  intros Nx Ny. rewrite FloatAxioms.add_spec.
  apply SFadd_nonneg; auto using Prim2SF_valid.
Qed.

Lemma nonneg_number (x : float) :
  nonnegSF (Prim2SF x) = true ->
  PrimFloat.is_nan x = false /\ PrimFloat.leb 0 x = true.
Proof.
  intro N. split.
  - rewrite is_nan_notNaN. now rewrite nonnegSF_notNaN.
  - rewrite FloatAxioms.leb_spec. change (Prim2SF 0) with (S754_zero false).
    now destruct (Prim2SF x) as [?|[]| |[] ? ?].
Qed.

(** Adding the doubles of two integers that are not negative, with a sum
    below 2^53, is exact. *)
Lemma of_Z_add (a b : Z) :
  0 <= a -> 0 <= b -> a + b < 2 ^ 53 ->
  (Js.of_Z a + Js.of_Z b)%float = Js.of_Z (a + b).
Proof.
  intros Ha Hb H. apply Prim2SF_inj.
  rewrite FloatAxioms.add_spec, !Prim2SF_of_Z. now apply SFadd_exact.
Qed.

Lemma compare_result_sub (x y : float) :
  PrimFloat.is_nan x = false -> PrimFloat.is_nan y = false ->
  (0 <? Js.compare_result (y - x)) = (rank x <? rank y).
Proof.
  intros Nx Ny. unfold Js.compare_result. rewrite (sub_sign x y Nx Ny).
  destruct (rank x <? rank y); [reflexivity|].
  now destruct (PrimFloat.ltb (y - x) 0).
Qed.

End Binary64Facts.

(** A stable descending sort by the rank of a numeric key is one by the
    key itself, when no key is NaN. *)
Section NumericKeyFacts.
Context {A : Type} (key : A -> float).

Lemma StronglySorted_impl_in (R R' : A -> A -> Prop) (l : list A) :
  (forall a b, In a l -> In b l -> R a b -> R' a b) ->
  StronglySorted R l -> StronglySorted R' l.
Proof.
  intros H S. induction S as [|a l S IH F]; constructor.
  - apply IH. intros x y Hx Hy. apply H; now right.
  - rewrite Forall_forall in F |- *. intros b Hb.
    apply H; [now left | now right | now apply F].
Qed.

Lemma stable_sorted_desc_by_rank (l out : list A) :
  (forall x, In x l -> PrimFloat.is_nan (key x) = false) ->
  Spec.stable_sorted_desc (fun x => JsNumber.rank (key x)) l out ->
  Spec.stable_sorted_desc_number key l out.
Proof.
  intros N (P & S & K).
  assert (N' : forall x, In x out -> PrimFloat.is_nan (key x) = false).
  { intros x Hx. apply N. exact (Permutation_in _ P Hx). }
  split; [exact P|]. split.
  - revert S. apply StronglySorted_impl_in. intros a b Ha Hb H.
    rewrite leb_rank by auto. now apply Z.leb_le.
  - intro q. destruct (PrimFloat.is_nan q) eqn:Q.
    + rewrite (filter_ext_in _ (fun _ => false) out),
              (filter_ext_in _ (fun _ => false) l);
        try (intros x _; now apply eqb_NaN_r).
      assert (F : forall l' : list A, filter (fun _ => false) l' = [])
        by (induction l'; simpl; auto).
      now rewrite !F.
    + rewrite (filter_ext_in _ (fun x => JsNumber.rank (key x) =? JsNumber.rank q) out),
              (filter_ext_in _ (fun x => JsNumber.rank (key x) =? JsNumber.rank q) l);
        try (intros x Hx; apply eqb_rank; auto).
      apply K.
Qed.

End NumericKeyFacts.

(** ** Best sellers *)

Section BestSellerFacts.

Lemma tally_snoc (l : list Finance.Movement) (s : Finance.Movement) (n : string) :
  Spec.tally (l ++ [s]) n
  = if Spec.named n s
    then {| ItemSales.quantity :=
              (ItemSales.quantity (Spec.tally l n) + Spec.units s)%float;
            ItemSales.revenue :=
              (ItemSales.revenue (Spec.tally l n) + Spec.line_total s)%float |}
    else Spec.tally l n.
Proof.
  unfold Spec.tally. rewrite filter_snoc.
  destruct (Spec.named n s); [|now rewrite app_nil_r].
  rewrite !map_app. unfold Spec.sum. rewrite !fold_left_app.
  reflexivity.
Qed.

Lemma tally_unseen (l : list Finance.Movement) (n : string) :
  ~ In n (map Spec.nameOf l) ->
  Spec.tally l n
  = {| ItemSales.quantity := 0%float; ItemSales.revenue := 0%float |}.
Proof.
  intro H. unfold Spec.tally.
  replace (filter (Spec.named n) l) with (@nil Finance.Movement); [reflexivity|].
  symmetry. induction l as [|m l IH]; [reflexivity|].
  simpl in H |- *. unfold Spec.named at 1. fold (Spec.nameOf m).
  destruct (String.eqb_spec (Spec.nameOf m) n) as [E|N]; [tauto|].
  apply IH. tauto.
Qed.

Lemma addSale_fold (l : list Finance.Movement) :
  fold_left Finance.addSale l Js.Map_empty
  = Js.tabulate (Spec.tally l) (Spec.distinct (map Spec.nameOf l)).
Proof.
  induction l as [|s l IH] using rev_ind; [reflexivity|].
  rewrite fold_left_app, IH. cbn [fold_left].
  unfold Finance.addSale. fold (Spec.nameOf s).
  set (ks := Spec.distinct (map Spec.nameOf l)).
  assert (Hnew : forall n, n <> Spec.nameOf s -> Spec.tally (l ++ [s]) n = Spec.tally l n).
  { intros n N. rewrite tally_snoc. unfold Spec.named. fold (Spec.nameOf s).
    destruct (String.eqb_spec (Spec.nameOf s) n); [congruence | reflexivity]. }
  assert (Hkey : forall existing, existing = Spec.tally l (Spec.nameOf s) ->
            {| ItemSales.quantity :=
                 (ItemSales.quantity existing
                  + Js.of_Z (Movement.quantity s))%float;
               ItemSales.revenue :=
                 (ItemSales.revenue existing
                  + Finance.priceAfterDiscount s
                    * Js.of_Z (Movement.quantity s))%float |}
            = Spec.tally (l ++ [s]) (Spec.nameOf s)).
  { intros e ->. rewrite tally_snoc. unfold Spec.named. fold (Spec.nameOf s).
    now rewrite String.eqb_refl. }
  rewrite map_app. cbn [map].
  destruct (in_dec string_dec (Spec.nameOf s) (map Spec.nameOf l)) as [Hin|Hout].
  - rewrite distinct_snoc_seen by exact Hin. fold ks.
    assert (Hk : In (Spec.nameOf s) ks) by (apply In_distinct; exact Hin).
    rewrite (Map_get_present _ _ _ Hk), (Hkey _ eq_refl).
    apply Map_set_present; auto. apply NoDup_distinct.
  - rewrite distinct_snoc_new by exact Hout. fold ks.
    assert (Hk : ~ In (Spec.nameOf s) ks)
      by (intro Hk; apply Hout; apply In_distinct; exact Hk).
    rewrite (Map_get_absent _ _ _ Hk).
    rewrite (Hkey _ (eq_sym (tally_unseen _ _ Hout))).
    apply Map_set_absent; auto.
Qed.

(** What [getBestSellers] sorts: the groups, in order of first appearance. *)
Lemma rankedSellers_sorts_groups (ms : list Finance.Movement) :
  Finance.rankedSellers ms
  = Js.sort (Js.numeric Finance.byQuantityDesc) (Spec.groupByName ms).
Proof.
  unfold Finance.rankedSellers, Js.Map_entries.
  rewrite addSale_fold. unfold Js.tabulate. now rewrite map_map.
Qed.

Lemma rankedSellers_perm (ms : list Finance.Movement) :
  Permutation (Finance.rankedSellers ms) (Spec.groupByName ms).
Proof. rewrite rankedSellers_sorts_groups. apply sort_perm. Qed.

(** On totals none of which is NaN, the comparator orders by descending
    total. *)
Lemma byQuantityDesc_orders (l : list BestSeller.t) :
  (forall e, In e l -> PrimFloat.is_nan (BestSeller.quantity e) = false) ->
  Js.orders_desc (Js.numeric Finance.byQuantityDesc)
    (fun e => JsNumber.rank (BestSeller.quantity e)) l.
Proof.
  intros N x y Hx Hy. unfold Js.numeric, Finance.byQuantityDesc.
  apply compare_result_sub; auto.
Qed.

Lemma noNaN_spec (l : list float) :
  Spec.noNaN l = true <-> forall x, In x l -> PrimFloat.is_nan x = false.
Proof.
  unfold Spec.noNaN. rewrite forallb_forall. split; intros H x Hx.
  - specialize (H x Hx). now destruct (PrimFloat.is_nan x).
  - now rewrite (H x Hx).
Qed.

Lemma rankedSellers_stable_sorted (ms : list Finance.Movement) :
  Spec.noNaN (map BestSeller.quantity (Spec.groupByName ms)) = true ->
  Spec.stable_sorted_desc_number BestSeller.quantity
    (Spec.groupByName ms) (Finance.rankedSellers ms).
Proof.
  intro N. rewrite noNaN_spec in N.
  assert (N' : forall e, In e (Spec.groupByName ms) ->
                 PrimFloat.is_nan (BestSeller.quantity e) = false)
    by (intros e He; apply N; now apply in_map).
  rewrite rankedSellers_sorts_groups.
  apply stable_sorted_desc_by_rank; [exact N'|].
  apply sort_stable_sorted_desc, byQuantityDesc_orders, N'.
Qed.

(** C5, as the code has it. [getBestSellers] takes no limit: it groups
    all SALE movements by item name, one group per name in order of first
    appearance, with the quantities and the discounted revenues of the
    name summed as binary64 numbers in ledger order; it returns the first
    five of these groups after sorting them.  When no total quantity is
    NaN, the groups are in descending order of total quantity and ties
    keep the order of first appearance (stable sort). *)
Theorem bestSellers_groups_sorted_first_five (ms : list Finance.Movement) :
  Finance.getBestSellers ms = firstn 5 (Finance.rankedSellers ms)
  /\ Permutation (Finance.rankedSellers ms) (Spec.groupByName ms)
  /\ (Spec.noNaN (map BestSeller.quantity (Spec.groupByName ms)) = true ->
      Spec.stable_sorted_desc_number BestSeller.quantity
        (Spec.groupByName ms) (Finance.rankedSellers ms)).
Proof.
  split; [reflexivity|].
  split; [apply rankedSellers_perm | apply rankedSellers_stable_sorted].
Qed.

End BestSellerFacts.

(** The sales of the specification's example, A (5 units) and B (8
    units): both groups are returned, B first. *)
Example bestSellers_A5_B8 :
  map (fun e => (BestSeller.name e, BestSeller.quantity e))
    (Finance.getBestSellers [Sample.saleA5; Sample.saleB8])
  = [("B", 8%float); ("A", 5%float)].
Proof. vm_compute. reflexivity. Qed.

(** Past 2^53 the total is a rounded sum: 2^53 units and one more unit
    of A show as 2^53 units. *)
Example bestSellers_total_rounds :
  map BestSeller.quantity
    (Finance.getBestSellers [Sample.saleA2p53; Sample.saleA1])
  = [9007199254740992%float].
Proof. vm_compute. reflexivity. Qed.

(** C5 at the sales of A (5 units) and B (8 units), whose totals are
    numbers. *)
Lemma bestSellers_groups_sorted_witness :
  Spec.stable_sorted_desc_number BestSeller.quantity
    (Spec.groupByName [Sample.saleA5; Sample.saleB8])
    (Finance.rankedSellers [Sample.saleA5; Sample.saleB8]).
Proof.
  apply (bestSellers_groups_sorted_first_five [Sample.saleA5; Sample.saleB8]).
  vm_compute. reflexivity.
Defined.

(** C5, as stated, fails: no limit can be given, and with sales of A
    (5 units) and B (8 units) the result is not the single entry for B. *)
Lemma bestSellers_not_truncated_to_one :
  ~ exists revenue,
      Finance.getBestSellers [Sample.saleA5; Sample.saleB8]
      = [ {| BestSeller.name := "B";
             BestSeller.quantity := 8%float;
             BestSeller.revenue := revenue |} ].
Proof.
  intros [revenue H]. vm_compute in H. discriminate H.
Qed.

(** ** The page at run time: what a call does to the store *)

Section StoreFacts.
Import Runtime.

Lemma nth_error_alloc (h : store) (a : list JsonMovement) :
  nth_error (h ++ [a]) (List.length h) = Some a.
Proof. rewrite nth_error_app2, Nat.sub_diag by lia. reflexivity. Qed.

Lemma nth_error_kept (h : store) (b a : list JsonMovement) (r : ref) :
  nth_error h r = Some a -> nth_error (h ++ [b]) r = Some a.
Proof.
  intro H. rewrite nth_error_app1; [exact H|].
  apply nth_error_Some. congruence.
Qed.

Lemma nth_error_extended (h ext : store) (a : list JsonMovement) (r : ref) :
  nth_error h r = Some a -> nth_error (h ++ ext) r = Some a.
Proof.
  intro H. rewrite nth_error_app1; [exact H|].
  apply nth_error_Some. congruence.
Qed.

Lemma bind_filter {B} (p : JsonMovement -> bool) (r : ref) (k : ref -> M B)
    (h : store) (a : list JsonMovement) :
  nth_error h r = Some a ->
  bind (Array_filter p r) k h = k (List.length h) (h ++ [filter p a]).
Proof. intro H. unfold Array_filter, read, alloc, bind. now rewrite H. Qed.

Lemma bind_reduce {B C} (f : C -> JsonMovement -> result C) (init : C)
    (r : ref) (k : C -> M B) (h : store) (a : list JsonMovement) :
  nth_error h r = Some a ->
  bind (Array_reduce f init r) k h
  = match reduce_result f a init with
    | Ok c => k c h
    | Throw e => (Throw e, h)
    end.
Proof.
  intro H. unfold Array_reduce, read, lift, bind. rewrite H.
  now destruct (reduce_result f a init).
Qed.

Lemma bind_forEach {B C} (f : C -> JsonMovement -> result C) (s : C)
    (r : ref) (k : C -> M B) (h : store) (a : list JsonMovement) :
  nth_error h r = Some a ->
  bind (Array_forEach f s r) k h
  = match reduce_result f a s with
    | Ok c => k c h
    | Throw e => (Throw e, h)
    end.
Proof. exact (bind_reduce f s r k h a). Qed.

Lemma bind_length {B} (r : ref) (k : Z -> M B) (h : store)
    (a : list JsonMovement) :
  nth_error h r = Some a ->
  bind (Array_length r) k h = k (Z.of_nat (List.length a)) h.
Proof. intro H. unfold Array_length, read, ret, bind. now rewrite H. Qed.

Lemma bind_unallocated {B} (p : JsonMovement -> bool) (r : ref)
    (k : ref -> M B) (h : store) :
  nth_error h r = None ->
  bind (Array_filter p r) k h = (Throw Unallocated, h).
Proof. intro H. unfold Array_filter, read, bind. now rewrite H. Qed.

Lemma run_sort (comparefn : JsonMovement -> JsonMovement -> Z) (r : ref)
    (h : store) (a : list JsonMovement) :
  nth_error h r = Some a ->
  Array_sort comparefn r h = (Ok r, update r (Js.sort comparefn a) h).
Proof. intro H. unfold Array_sort, read, write, ret, bind. now rewrite H. Qed.

Lemma update_alloc (h : store) (a b : list JsonMovement) :
  update (List.length h) b (h ++ [a]) = h ++ [b].
Proof. induction h as [|c h IH]; simpl; [reflexivity | now rewrite IH]. Qed.

Lemma bind_assoc {A B C} (c : M A) (k1 : A -> M B) (k2 : B -> M C) (h : store) :
  bind (bind c k1) k2 h = bind c (fun x => bind (k1 x) k2) h.
Proof. unfold bind. destruct (c h) as [[a|e] h']; reflexivity. Qed.

Lemma bind_ret {A B} (a : A) (k : A -> M B) (h : store) :
  bind (ret a) k h = k a h.
Proof. reflexivity. Qed.

End StoreFacts.

(** The array an address holds in a store that grew by allocation. *)
Ltac store_lookup :=
  first [ apply nth_error_alloc
        | eassumption
        | apply nth_error_kept; store_lookup ].

(** One step of a call: the next array method, on the store it meets. *)
Ltac run_step :=
  first [ rewrite bind_ret
        | rewrite bind_assoc
        | erewrite bind_filter by store_lookup
        | erewrite bind_length by store_lookup
        | erewrite bind_reduce by store_lookup
        | erewrite bind_forEach by store_lookup ].

(** A whole call: steps, and a case for each callback that may throw. *)
Ltac run_call :=
  repeat first
    [ run_step
    | match goal with
      | |- context [match Runtime.reduce_result ?f ?l ?i with _ => _ end] =>
          destruct (Runtime.reduce_result f l i)
      | |- context [Runtime.bind (if ?b then _ else _) _ _] => destruct b
      end ].

Section RuntimeFacts.
Context {host : Js.DateHost}.
Import Runtime.

(** A call of [calculateMetrics] only allocates: the store it leaves is
    the store it was given, followed by the arrays of its filters. *)
Lemma calculateMetrics_frame (r : ref) (range : DateRange.t) (now : Z)
    (h : store) :
  exists ext, snd (calculateMetrics r range now h) = h ++ ext.
Proof.
  unfold calculateMetrics.
  destruct (nth_error h r) as [a|] eqn:Ha.
  2:{ rewrite bind_unallocated by exact Ha. exists []. symmetry.
      apply app_nil_r. }
  run_call; cbn [snd ret]; rewrite <- ?app_assoc; eexists; reflexivity.
Qed.

(** Its outcome depends on the store through the [movements] array only. *)
Lemma calculateMetrics_reads_array (r r' : ref) (range : DateRange.t)
    (now : Z) (h h' : store) (a : list JsonMovement) :
  nth_error h r = Some a -> nth_error h' r' = Some a ->
  fst (calculateMetrics r range now h) = fst (calculateMetrics r' range now h').
Proof.
  intros Ha Ha'. unfold calculateMetrics.
  run_call; reflexivity.
Qed.

Lemma calculateMetrics_unallocated (r : ref) (range : DateRange.t) (now : Z)
    (h : store) :
  nth_error h r = None ->
  calculateMetrics r range now h = (Throw Unallocated, h).
Proof.
  intro H. unfold calculateMetrics. now rewrite bind_unallocated.
Qed.

(** C7. The financial summary is deterministic and free of side effects:
    a second call of [calculateMetrics] on the store the first call left,
    with the same date range and the same current date, has the same
    outcome (the same totalRevenue, monthlyRevenue, totalSales,
    averageDiscount and netCashFlow), and every array the store held
    before the calls, the movements with their items among them, is
    unchanged after each of them. *)
Theorem calculateMetrics_idempotent_no_side_effect
    (movements : ref) (range : DateRange.t) (now : Z) (h : store) :
  let first := calculateMetrics movements range now h in
  let second := calculateMetrics movements range now (snd first) in
  fst second = fst first
  /\ forall r a, nth_error h r = Some a ->
       nth_error (snd first) r = Some a /\ nth_error (snd second) r = Some a.
Proof.
  cbv zeta.
  destruct (calculateMetrics_frame movements range now h) as [ext1 E1].
  destruct (calculateMetrics_frame movements range now (h ++ ext1)) as [ext2 E2].
  rewrite E1. split.
  - destruct (nth_error h movements) as [a|] eqn:Ha.
    + symmetry. apply calculateMetrics_reads_array with (a := a); [exact Ha|].
      now apply nth_error_extended.
    + rewrite calculateMetrics_unallocated in E1 by exact Ha.
      cbn [snd] in E1. rewrite <- E1. reflexivity.
  - intros r a Hr. rewrite E2. split.
    + now apply nth_error_extended.
    + now apply nth_error_extended, nth_error_extended.
Qed.

(** *** Payloads of the declared type *)

Lemma filter_payload (p : JsonMovement -> bool) (q : Finance.Movement -> bool)
    (l : list Finance.Movement) :
  (forall m, p (payload m) = q m) ->
  filter p (map payload l) = map payload (filter q l).
Proof.
  intro H. induction l as [|m l IH]; simpl; [reflexivity|].
  rewrite H. destruct (q m); simpl; now rewrite IH.
Qed.

Lemma filter_isSale_payload (l : list Finance.Movement) :
  filter Finance.isSale (map payload l) = map payload (filter Finance.isSale l).
Proof. now apply filter_payload. Qed.

Lemma filter_isPurchase_payload (l : list Finance.Movement) :
  filter Finance.isPurchase (map payload l)
  = map payload (filter Finance.isPurchase l).
Proof. now apply filter_payload. Qed.

Lemma filter_inDateRange_payload (range : DateRange.t)
    (l : list Finance.Movement) :
  filter (Finance.inDateRange range) (map payload l)
  = map payload (filter (Finance.inDateRange range) l).
Proof. now apply filter_payload. Qed.

Lemma filter_inCurrentMonth_payload (now : Z) (l : list Finance.Movement) :
  filter (Finance.inCurrentMonth now) (map payload l)
  = map payload (filter (Finance.inCurrentMonth now) l).
Proof. now apply filter_payload. Qed.

Lemma reduce_payload {B} (f : B -> JsonMovement -> result B)
    (g : B -> Finance.Movement -> B) (l : list Finance.Movement) (acc : B) :
  (forall b m, f b (payload m) = Ok (g b m)) ->
  reduce_result f (map payload l) acc = Ok (fold_left g l acc).
Proof.
  intro H. revert acc.
  induction l as [|m l IH]; intro acc; simpl; [reflexivity|].
  rewrite H. simpl. apply IH.
Qed.

Lemma addLineTotal_payload (l : list Finance.Movement) (acc : float) :
  reduce_result addLineTotal (map payload l) acc
  = Ok (fold_left (fun sum sale =>
          (sum + Finance.priceAfterDiscount sale
                 * Js.of_Z (Movement.quantity sale))%float) l acc).
Proof. now apply reduce_payload. Qed.

Lemma addDiscount_payload (l : list Finance.Movement) (acc : float) :
  reduce_result addDiscount (map payload l) acc
  = Ok (fold_left (fun sum sale =>
          (sum + Movement.discount_percent sale)%float) l acc).
Proof. now apply reduce_payload. Qed.

Lemma addPurchaseCost_payload (l : list Finance.Movement) (acc : float) :
  reduce_result addPurchaseCost (map payload l) acc
  = Ok (fold_left (fun sum purchase =>
          (sum + StockItem.unit_price (Movement.stock purchase)
                 * Js.of_Z (Movement.quantity purchase))%float) l acc).
Proof. now apply reduce_payload. Qed.

Lemma addSale_payload (l : list Finance.Movement) (acc : Js.Map ItemSales.t) :
  reduce_result addSale (map payload l) acc
  = Ok (fold_left Finance.addSale l acc).
Proof. now apply reduce_payload. Qed.

End RuntimeFacts.

Ltac typed_payload :=
  rewrite ?filter_isSale_payload, ?filter_isPurchase_payload,
    ?filter_inDateRange_payload, ?filter_inCurrentMonth_payload,
    ?addLineTotal_payload, ?addDiscount_payload, ?addPurchaseCost_payload,
    ?addSale_payload, ?length_map.

Section DanglingItemFacts.
Context {host : Js.DateHost}.
Import Runtime.

Lemma calculateMetrics_typed (r : ref) (range : DateRange.t) (now : Z)
    (h : store) (ms : list Finance.Movement) :
  nth_error h r = Some (map payload ms) ->
  fst (calculateMetrics r range now h)
  = Ok (Finance.calculateMetrics ms range now).
Proof.
  intro Ha. unfold calculateMetrics.
  repeat (run_step; typed_payload).
  unfold Finance.calculateMetrics, Finance.Movement in *.
  match goal with
  | |- context [Runtime.bind (if ?b then _ else _) _ _] => destruct b
  end; repeat (run_step; typed_payload); reflexivity.
Qed.

Lemma getBestSellers_typed (r : ref) (h : store) (ms : list Finance.Movement) :
  nth_error h r = Some (map payload ms) ->
  fst (getBestSellers r h) = Ok (Finance.getBestSellers ms).
Proof.
  intro Ha. unfold getBestSellers.
  repeat (run_step; typed_payload). reflexivity.
Qed.

(** The in-place [sort] of the sales table works on the array its own
    filter allocated: the table is a new array, and the arrays of before
    the call are left as they were. *)
Lemma getSalesForTable_typed (r : ref) (range : DateRange.t) (h : store)
    (ms : list Finance.Movement) :
  nth_error h r = Some (map payload ms) ->
  getSalesForTable r range h
  = (Ok (S (List.length h)),
     h ++ [map payload (filter Finance.isSale ms);
           map payload (Finance.getSalesForTable ms range)]).
Proof.
  intro Ha. unfold getSalesForTable.
  repeat (run_step; typed_payload).
  erewrite run_sort by store_lookup.
  rewrite update_alloc, length_app, Nat.add_1_r, <- app_assoc.
  unfold Finance.getSalesForTable.
  now rewrite (sort_map Finance.byDateDesc payload Finance.byDateDesc).
Qed.

(** C8, as the code has it. The page has no [itemDeleted] flag.  When
    every movement of the array carries its [stock] item, the summary and
    the best sellers do not throw, and they take the name and the price
    from that carried item: they return what the functions on the declared
    types compute. *)
Theorem aggregates_do_not_throw_when_stock_present
    (movements : ref) (range : DateRange.t) (now : Z) (h : store)
    (ms : list Finance.Movement) :
  nth_error h movements = Some (map payload ms) ->
  fst (calculateMetrics movements range now h)
  = Ok (Finance.calculateMetrics ms range now)
  /\ fst (getBestSellers movements h) = Ok (Finance.getBestSellers ms).
Proof.
  intro H. split;
    [now apply calculateMetrics_typed | now apply getBestSellers_typed].
Qed.

End DanglingItemFacts.

Lemma aggregates_do_not_throw_witness :
  nth_error [map Runtime.payload [Sample.saleA5; Sample.saleB8]] 0%nat
  = Some (map Runtime.payload [Sample.saleA5; Sample.saleB8])
  /\ fst (@Runtime.calculateMetrics Js.utcHost 0%nat Sample.march Sample.midMarch
            [map Runtime.payload [Sample.saleA5; Sample.saleB8]])
     = Runtime.Ok (@Finance.calculateMetrics Js.utcHost
                     [Sample.saleA5; Sample.saleB8] Sample.march Sample.midMarch)
  /\ fst (Runtime.getBestSellers 0%nat
            [map Runtime.payload [Sample.saleA5; Sample.saleB8]])
     = Runtime.Ok (Finance.getBestSellers [Sample.saleA5; Sample.saleB8]).
Proof.
  split; [reflexivity|].
  apply (@aggregates_do_not_throw_when_stock_present Js.utcHost 0%nat Sample.march
           Sample.midMarch
           [map Runtime.payload [Sample.saleA5; Sample.saleB8]]
           [Sample.saleA5; Sample.saleB8]).
  reflexivity.
Defined.

(** C8, as stated, fails: a sale whose payload carries no item makes the
    summary and the best sellers throw a [TypeError]; nothing is reported
    as deleted. *)
Lemma aggregates_throw_on_missing_stock :
  fst (@Runtime.calculateMetrics Js.utcHost 0%nat Sample.march Sample.midMarch
         [[Sample.orphanSale]])
  = Runtime.Throw Runtime.TypeError
  /\ fst (Runtime.getBestSellers 0%nat [[Sample.orphanSale]])
     = Runtime.Throw Runtime.TypeError.
Proof. split; vm_compute; reflexivity. Qed.

(** ** The movement ledger *)

Module LedgerFacts.
Import stdpp.base stdpp.gmap.
Import Ledger.
Local Open Scope Z_scope.

(** A rejected request leaves the state as it was. *)
Lemma recordMovement_rejected (now itemId : Z) (ty : MovementType) (qty : Z)
    (d : Q) (st : State) (e : Error) :
  (recordMovement now itemId ty qty d st).1 = inl e ->
  (recordMovement now itemId ty qty d st).2 = st.
Proof.
  unfold recordMovement.
  destruct (validate st itemId ty qty d) as [e'|item]; [reflexivity|].
  destruct (checkAvailability ty item qty) as [e'|[]]; [reflexivity|].
  discriminate.
Qed.

(** What an accepted request did. *)
Lemma recordMovement_applied (now itemId : Z) (ty : MovementType) (qty : Z)
    (d : Q) (st : State) (m : Movement.t) :
  (recordMovement now itemId ty qty d st).1 = inr m ->
  exists item,
    items st !! itemId = Some item
    /\ 0 < qty
    /\ (ty = SALE -> qty <= Item.quantity item)
    /\ Movement.item_id m = itemId /\ Movement.type m = ty
    /\ Movement.quantity m = qty
    /\ (recordMovement now itemId ty qty d st).2
       = {| items := <[itemId := applyMovement ty item qty]> (items st);
            ledger := ledger st ++ [m] |}.
Proof.
  unfold recordMovement, validate, checkAvailability.
  destruct (items st !! itemId) as [item|]; [|discriminate].
  destruct (Z.leb_spec qty 0) as [Hq|Hq]; [discriminate|].
  destruct ty.
  - simpl. intros [= <-]. exists item. repeat split; try done.
  - destruct (validDiscount d); [|discriminate].
    destruct (Z.leb_spec qty (Item.quantity item)) as [Hs|Hs]; [|discriminate].
    simpl. intros [= <-]. exists item. repeat split; try done.
Qed.

Lemma handle_cases (now : Z) (req : Request) (st : State) :
  (exists e, handle now req st = (inl e, st))
  \/ (exists m item,
        items st !! Movement.item_id m = Some item
        /\ 0 < Movement.quantity m
        /\ (Movement.type m = SALE -> Movement.quantity m <= Item.quantity item)
        /\ handle now req st
           = (inr m,
              {| items := <[Movement.item_id m :=
                              applyMovement (Movement.type m) item
                                (Movement.quantity m)]> (items st);
                 ledger := ledger st ++ [m] |})).
Proof.
  assert (G : forall itemId ty qty d,
    (exists e, recordMovement now itemId ty qty d st = (inl e, st))
    \/ (exists m item,
          items st !! Movement.item_id m = Some item
          /\ 0 < Movement.quantity m
          /\ (Movement.type m = SALE -> Movement.quantity m <= Item.quantity item)
          /\ recordMovement now itemId ty qty d st
             = (inr m,
                {| items := <[Movement.item_id m :=
                                applyMovement (Movement.type m) item
                                  (Movement.quantity m)]> (items st);
                   ledger := ledger st ++ [m] |}))).
  { intros itemId ty qty d.
    destruct (recordMovement now itemId ty qty d st) as [[e|m] st'] eqn:E.
    - left. exists e. f_equal.
      pose proof (recordMovement_rejected now itemId ty qty d st e) as H.
      rewrite E in H. now apply H.
    - right.
      pose proof (recordMovement_applied now itemId ty qty d st m) as H.
      rewrite E in H. simpl in H.
      destruct (H eq_refl) as (item & Hi & Hq & Hs & <- & <- & <- & ->).
      exists m, item. done. }
  destruct req; apply G.
Qed.

Lemma total_cons (ty : MovementType) (i : Z) (m : Movement.t)
    (l : list Movement.t) :
  total ty i (m :: l)
  = (if (Movement.item_id m =? i) && MovementType_eqb (Movement.type m) ty
     then Movement.quantity m else 0) + total ty i l.
Proof. reflexivity. Qed.

(** The invariant over a whole sequence of requests. *)
Lemma serve_invariant (reqs : list (Z * Request)) :
  forall (st0 : State) (i : Z) (item0 : Item.t),
  items st0 !! i = Some item0 -> 0 <= Item.quantity item0 ->
  exists item,
    items (serve reqs st0).2 !! i = Some item
    /\ Item.quantity item
       = Item.quantity item0 + total PURCHASE i (applied (serve reqs st0).1)
         - total SALE i (applied (serve reqs st0).1)
    /\ 0 <= Item.quantity item
    /\ ledger (serve reqs st0).2 = ledger st0 ++ applied (serve reqs st0).1.
Proof.
  induction reqs as [|[now req] rest IH]; intros st0 i item0 H0 Hpos.
  - exists item0. simpl. rewrite app_nil_r. repeat split; try done. lia.
  - simpl. destruct (handle_cases now req st0) as [[e ->]|(m & item & Hi & Hq & Hs & ->)].
    + destruct (IH st0 i item0 H0 Hpos) as (it & ? & ? & ? & ?).
      destruct (serve rest st0) as [rs st]. exists it. done.
    + set (st1 := {| items := _; ledger := _ |}).
      destruct (decide (Movement.item_id m = i)) as [Ei|Ni].
      * rewrite Ei, H0 in Hi. injection Hi as <-.
        set (item1 := applyMovement (Movement.type m) item0 (Movement.quantity m)).
        assert (H1 : items st1 !! i = Some item1)
          by (subst st1; simpl; rewrite Ei; apply lookup_insert_eq).
        assert (Hpos1 : 0 <= Item.quantity item1)
          by (subst item1; simpl; destruct (Movement.type m); [lia|];
              specialize (Hs eq_refl); lia).
        destruct (IH st1 i item1 H1 Hpos1) as (it & Hl & Hqty & Hp & Hled).
        destruct (serve rest st1) as [rs st]. exists it.
        cbn [fst snd applied] in *. rewrite !total_cons, Ei, Z.eqb_refl.
        repeat split; try done.
        -- rewrite Hqty. subst item1. simpl.
           destruct (Movement.type m); simpl; lia.
        -- rewrite Hled. subst st1. simpl. now rewrite <- app_assoc.
      * assert (H1 : items st1 !! i = Some item0)
          by (subst st1; simpl; rewrite lookup_insert_ne; done).
        destruct (IH st1 i item0 H1 Hpos) as (it & Hl & Hqty & Hp & Hled).
        destruct (serve rest st1) as [rs st]. exists it.
        cbn [fst snd applied] in *. rewrite !total_cons.
        apply Z.eqb_neq in Ni. rewrite Ni. simpl.
        repeat split; try done.
        rewrite Hled. subst st1. simpl. now rewrite <- app_assoc.
Qed.

(** C1. Along every sequence of movement requests, at every point of the
    sequence, the quantity of an item is its initial quantity plus the
    quantities of its applied PURCHASE movements minus the quantities of
    its applied SALE movements, and it is never negative; the ledger has
    grown by exactly the applied movements. *)
Theorem quantity_is_initial_plus_purchases_minus_sales
    (reqs : list (Z * Request)) (st0 : State) (i : Z) (item0 : Item.t) :
  items st0 !! i = Some item0 -> 0 <= Item.quantity item0 ->
  forall n : nat,
  exists item,
    items (serve (firstn n reqs) st0).2 !! i = Some item
    /\ Item.quantity item
       = Item.quantity item0
         + total PURCHASE i (applied (serve (firstn n reqs) st0).1)
         - total SALE i (applied (serve (firstn n reqs) st0).1)
    /\ 0 <= Item.quantity item
    /\ ledger (serve (firstn n reqs) st0).2
       = ledger st0 ++ applied (serve (firstn n reqs) st0).1.
Proof.
  intros H0 Hpos n. now apply serve_invariant.
Qed.

Lemma quantity_invariant_witness :
  exists item,
    items (serve (firstn 3 scenario) scenarioStart).2 !! 1 = Some item
    /\ Item.quantity item
       = Item.quantity sku1
         + total PURCHASE 1 (applied (serve (firstn 3 scenario) scenarioStart).1)
         - total SALE 1 (applied (serve (firstn 3 scenario) scenarioStart).1)
    /\ 0 <= Item.quantity item
    /\ ledger (serve (firstn 3 scenario) scenarioStart).2
       = ledger scenarioStart
         ++ applied (serve (firstn 3 scenario) scenarioStart).1.
Proof.
  apply (quantity_is_initial_plus_purchases_minus_sales
           scenario scenarioStart 1 sku1); [reflexivity | simpl; lia].
Defined.

(** C3. A SALE whose requested quantity exceeds the current quantity of
    the item is rejected and leaves the state, so the quantity of the item
    and the ledger, exactly as before: reading the item back gives the
    item of before the attempt.  When the request is otherwise valid (the
    stock is not negative and the discount lies in [0,100]) the error is
    InsufficientStock. *)
Theorem sale_exceeding_stock_rejected
    (now itemId qty : Z) (d : Q) (st : State) (item : Item.t) :
  items st !! itemId = Some item -> Item.quantity item < qty ->
  (exists e, recordSale now itemId qty d st = (inl e, st))
  /\ items (recordSale now itemId qty d st).2 !! itemId = Some item
  /\ ledger (recordSale now itemId qty d st).2 = ledger st
  /\ (0 <= Item.quantity item -> validDiscount d = true ->
      recordSale now itemId qty d st = (inl InsufficientStock, st)).
Proof.
  intros Hi Hq.
  assert (E : exists e, recordSale now itemId qty d st = (inl e, st)
              /\ (0 <= Item.quantity item -> validDiscount d = true ->
                  e = InsufficientStock)).
  { unfold recordSale, recordMovement, validate, checkAvailability.
    rewrite Hi.
    destruct (Z.leb_spec qty 0); [eexists; split; [reflexivity|lia]|].
    destruct (validDiscount d);
      [|eexists; split; [reflexivity|discriminate]].
    destruct (Z.leb_spec qty (Item.quantity item)); [lia|].
    eexists; split; reflexivity. }
  destruct E as (e & E & He). rewrite E. simpl.
  repeat split; try done.
  - now exists e.
  - intros Hpos Hd. now rewrite (He Hpos Hd).
Qed.

Lemma sale_exceeding_stock_witness :
  (exists e, recordSale 3000 1 10 0%Q (serve (firstn 2 scenario) scenarioStart).2
             = (inl e, (serve (firstn 2 scenario) scenarioStart).2))
  /\ recordSale 3000 1 10 0%Q (serve (firstn 2 scenario) scenarioStart).2
     = (inl InsufficientStock, (serve (firstn 2 scenario) scenarioStart).2).
Proof.
  set (st := (serve (firstn 2 scenario) scenarioStart).2).
  destruct (sale_exceeding_stock_rejected 3000 1 10 0%Q st
              {| Item.id := 1; Item.reference := "SKU1"; Item.name := "SKU1";
                 Item.quantity := 6; Item.unit_price := 50%Q |})
    as (He & _ & _ & Hi).
  - vm_compute. reflexivity.
  - simpl. lia.
  - split; [exact He|]. apply Hi; [simpl; lia | reflexivity].
Defined.

(** The scenario of the specification: a purchase of 10, a sale of 4,
    then a sale of 10 that is refused; the stock ends at 6. *)
Example scenario_ends_at_six :
  Item.quantity <$> (items (serve scenario scenarioStart).2 !! 1) = Some 6
  /\ List.length (ledger (serve scenario scenarioStart).2) = 2%nat
  /\ last (serve scenario scenarioStart).1 = Some (inl InsufficientStock).
Proof. vm_compute. done. Qed.

End LedgerFacts.

(** ** More on the finance page *)

Section Sums.

Lemma sumZ_from (l : list Z) (a : Z) : fold_left Z.add l a = a + Spec.sumZ l.
Proof.
  unfold Spec.sumZ. revert a. induction l as [|x l IH]; intro a; simpl; [lia|].
  rewrite IH, (IH (0 + x)). lia.
Qed.

Lemma sumZ_cons (x : Z) (l : list Z) : Spec.sumZ (x :: l) = x + Spec.sumZ l.
Proof. unfold Spec.sumZ at 1. simpl. apply sumZ_from. Qed.

Lemma sumZ_perm (l l' : list Z) : Permutation l l' -> Spec.sumZ l = Spec.sumZ l'.
Proof.
  induction 1 as [|x l l' _ IH|x y l|l l' l'' _ IH1 _ IH2];
    rewrite ?sumZ_cons; lia.
Qed.

Lemma sumZ_nonneg (l : list Z) :
  (forall z, In z l -> 0 <= z) -> 0 <= Spec.sumZ l.
Proof.
  induction l as [|x l IH]; intro H; [reflexivity|].
  rewrite sumZ_cons. specialize (H x (or_introl eq_refl)) as Hx.
  assert (0 <= Spec.sumZ l) by (apply IH; intros z Hz; apply H; now right).
  lia.
Qed.

Lemma sumZ_filter_le {A} (q : A -> Z) (f : A -> bool) (l : list A) :
  (forall x, In x l -> 0 <= q x) ->
  Spec.sumZ (map q (filter f l)) <= Spec.sumZ (map q l).
Proof.
  induction l as [|x l IH]; intro H; [reflexivity|].
  assert (Hl : Spec.sumZ (map q (filter f l)) <= Spec.sumZ (map q l))
    by (apply IH; intros y Hy; apply H; now right).
  specialize (H x (or_introl eq_refl)).
  cbn [filter map]. destruct (f x); cbn [map]; rewrite !sumZ_cons; lia.
Qed.

(** Summing a function over names, one name taken apart. *)
Lemma sum_over_names (g : string -> Z) (n0 : string) (D : list string) :
  NoDup D -> (~ In n0 D -> g n0 = 0) ->
  Spec.sumZ (map g D)
  = g n0 + Spec.sumZ (map g (filter (fun k => negb (String.eqb k n0)) D)).
Proof.
  intros Hnd. induction Hnd as [|k D Hk Hnd IH]; intro H0.
  - simpl. rewrite H0 by tauto. reflexivity.
  - cbn [map filter]. rewrite sumZ_cons.
    destruct (String.eqb_spec k n0) as [->|N]; cbn [negb].
    + f_equal. f_equal. f_equal. symmetry.
      apply forallb_filter_id. apply forallb_forall. intros x Hx.
      destruct (String.eqb_spec x n0) as [->|]; [contradiction | reflexivity].
    + cbn [map]. rewrite sumZ_cons, IH; [lia|].
      intro Hn. apply H0. simpl. tauto.
Qed.

Lemma filter_named_unseen (l : list Finance.Movement) (n : string) :
  ~ In n (map Spec.nameOf l) -> filter (Spec.named n) l = [].
Proof.
  induction l as [|x l IH]; [reflexivity|].
  simpl. intro Hn. unfold Spec.named at 1. fold (Spec.nameOf x).
  destruct (String.eqb_spec (Spec.nameOf x) n); [tauto | apply IH; tauto].
Qed.

Lemma group_quantities (l : list Finance.Movement) :
  Spec.sumZ (map (fun n => Spec.sumZ (map Movement.quantity
                                        (filter (Spec.named n) l)))
               (Spec.distinct (map Spec.nameOf l)))
  = Spec.sumZ (map Movement.quantity l).
Proof.
  induction l as [|m l IH]; [reflexivity|].
  cbn [map Spec.distinct]. rewrite !sumZ_cons.
  cbn [filter]. unfold Spec.named at 1. fold (Spec.nameOf m).
  rewrite String.eqb_refl. cbn [map]. rewrite sumZ_cons, <- IH.
  rewrite (sum_over_names
             (fun n => Spec.sumZ (map Movement.quantity (filter (Spec.named n) l)))
             (Spec.nameOf m) (Spec.distinct (map Spec.nameOf l))).
  - rewrite <- Z.add_assoc. f_equal. f_equal. f_equal.
    apply map_ext_in. intros n Hn. apply filter_In in Hn. destruct Hn as [_ Hn].
    cbn [filter]. unfold Spec.named at 1. fold (Spec.nameOf m).
    destruct (String.eqb_spec (Spec.nameOf m) n) as [<-|]; [|reflexivity].
    rewrite String.eqb_refl in Hn. discriminate.
  - apply NoDup_distinct.
  - intro Hn. rewrite In_distinct in Hn.
    now rewrite filter_named_unseen.
Qed.

(** Sums of binary64 numbers: of numbers that are not below zero, and of
    the doubles of integers whose sum is a safe integer. *)
Lemma sum_nonneg_from (l : list float) (acc : float) :
  JsNumber.nonnegSF (Prim2SF acc) = true ->
  (forall x, In x l -> JsNumber.nonnegSF (Prim2SF x) = true) ->
  JsNumber.nonnegSF (Prim2SF (fold_left PrimFloat.add l acc)) = true.
Proof.
  revert acc. induction l as [|x l IH]; intros acc Ha H; [exact Ha|].
  cbn [fold_left]. apply IH.
  - apply add_nonneg; [exact Ha | apply H; now left].
  - intros y Hy. apply H. now right.
Qed.

Lemma sum_nonneg (l : list float) :
  (forall x, In x l -> JsNumber.nonnegSF (Prim2SF x) = true) ->
  JsNumber.nonnegSF (Prim2SF (Spec.sum l)) = true.
Proof. apply sum_nonneg_from. reflexivity. Qed.

Lemma sum_of_Z_from (l : list Z) (acc : Z) :
  0 <= acc -> (forall z, In z l -> 0 <= z) ->
  fold_left Z.add l acc <= JsNumber.MAX_SAFE_INTEGER ->
  fold_left PrimFloat.add (map Js.of_Z l) (Js.of_Z acc)
  = Js.of_Z (fold_left Z.add l acc).
Proof.
  revert acc. induction l as [|x l IH]; intros acc Ha H Hs; [reflexivity|].
  cbn [fold_left map] in *.
  assert (Hx : 0 <= x) by (apply H; now left).
  assert (Hl : forall z, In z l -> 0 <= z) by (intros z Hz; apply H; now right).
  rewrite sumZ_from in Hs. pose proof (sumZ_nonneg l Hl) as Hn.
  unfold JsNumber.MAX_SAFE_INTEGER in *.
  rewrite of_Z_add; [|exact Ha|exact Hx|].
  - apply IH; [lia | exact Hl |]. rewrite sumZ_from. lia.
  - change (2 ^ 53) with 9007199254740992. lia.
Qed.

Lemma sum_of_Z (l : list Z) :
  (forall z, In z l -> 0 <= z) ->
  Spec.sumZ l <= JsNumber.MAX_SAFE_INTEGER ->
  Spec.sum (map Js.of_Z l) = Js.of_Z (Spec.sumZ l).
Proof.
  intros H Hs. unfold Spec.sum, Spec.sumZ.
  change 0%float with (Js.of_Z 0). apply sum_of_Z_from; auto. lia.
Qed.

End Sums.

Section FinanceExtras.
Context {host : Js.DateHost}.

(** X1. The rows of the sales table are as many as the "Total ventes" tile
    says, so the table is empty exactly when the tile shows 0. *)
Theorem salesTable_rows_match_totalSales
    (ms : list Finance.Movement) (range : DateRange.t) (now : Z) :
  Z.of_nat (List.length (Finance.getSalesForTable ms range))
  = FinancialMetrics.totalSales (Finance.calculateMetrics ms range now)
  /\ (Finance.getSalesForTable ms range = []
      <-> FinancialMetrics.totalSales (Finance.calculateMetrics ms range now) = 0).
Proof.
  assert (E : List.length (Finance.getSalesForTable ms range)
              = List.length (filter (Finance.inDateRange range)
                               (filter Finance.isSale ms))).
  { unfold Finance.getSalesForTable. apply Permutation_length, sort_perm. }
  unfold Finance.calculateMetrics. cbn [FinancialMetrics.totalSales].
  rewrite <- E. split; [reflexivity|].
  destruct (Finance.getSalesForTable ms range); simpl; split;
    intro H; try reflexivity; try discriminate; lia.
Qed.

Lemma names_groupByName (ms : list Finance.Movement) :
  map BestSeller.name (Spec.groupByName ms)
  = Spec.distinct (map Spec.nameOf (filter Finance.isSale ms)).
Proof.
  unfold Spec.groupByName. rewrite map_map. apply map_id.
Qed.

Lemma NoDup_firstn {A} (n : nat) (l : list A) : NoDup l -> NoDup (firstn n l).
Proof.
  revert n. induction l as [|x l IH]; intros [|n] H; simpl; try constructor.
  - inversion_clear H as [|? ? Hx Hl]. intro Hin. apply Hx.
    rewrite <- (firstn_skipn n l). apply in_or_app. now left.
  - inversion_clear H. now apply IH.
Qed.

Lemma In_firstn {A} (n : nat) (l : list A) (x : A) :
  In x (firstn n l) -> In x l.
Proof.
  intro H. rewrite <- (firstn_skipn n l). apply in_or_app. now left.
Qed.

(** X2. At most five best sellers are shown, no item name twice, and each
    name is the name of the item of some SALE movement. *)
Theorem bestSellers_at_most_five_distinct_names (ms : list Finance.Movement) :
  (List.length (Finance.getBestSellers ms) <= 5)%nat
  /\ NoDup (map BestSeller.name (Finance.getBestSellers ms))
  /\ forall e, In e (Finance.getBestSellers ms) ->
       exists m, In m ms /\ Movement.movement_type m = sale
                 /\ StockItem.name (Movement.stock m) = BestSeller.name e.
Proof.
  pose proof (rankedSellers_perm ms) as P.
  unfold Finance.getBestSellers. split; [apply firstn_le_length|]. split.
  - rewrite <- firstn_map. apply NoDup_firstn.
    apply (Permutation_NoDup (l := map BestSeller.name (Spec.groupByName ms))).
    + symmetry. now apply Permutation_map.
    + rewrite names_groupByName. apply NoDup_distinct.
  - intros e He. apply In_firstn in He.
    apply (Permutation_in _ P) in He.
    apply (in_map BestSeller.name) in He. rewrite names_groupByName in He.
    apply In_distinct, in_map_iff in He. destruct He as (m & Hn & Hm).
    apply filter_In in Hm. destruct Hm as [Hm Hs].
    exists m. repeat split; auto.
    unfold Finance.isSale in Hs. now destruct (Movement.movement_type m).
Qed.

(** X3. The empty-state message of the best sellers shows exactly when the
    movements hold no SALE. *)
Theorem bestSellers_empty_iff_no_sale (ms : list Finance.Movement) :
  Finance.getBestSellers ms = []
  <-> forall m, In m ms -> Movement.movement_type m <> sale.
Proof.
  pose proof (rankedSellers_perm ms) as P.
  unfold Finance.getBestSellers. split.
  - intros H m Hm Hs.
    assert (R : Finance.rankedSellers ms = [])
      by (destruct (Finance.rankedSellers ms); [reflexivity | discriminate]).
    rewrite R in P. apply Permutation_nil in P.
    apply (f_equal (map BestSeller.name)) in P.
    rewrite names_groupByName in P.
    assert (I : In (Spec.nameOf m) (Spec.distinct (map Spec.nameOf (filter Finance.isSale ms)))).
    { apply In_distinct, in_map, filter_In. split; [exact Hm|].
      unfold Finance.isSale. now rewrite Hs. }
    rewrite P in I. destruct I.
  - intro H.
    assert (F : filter Finance.isSale ms = []).
    { clear P. induction ms as [|m ms IH]; [reflexivity|]. simpl.
      assert (Hm := H m (or_introl eq_refl)).
      unfold Finance.isSale at 1.
      destruct (Movement.movement_type m); [|congruence].
      apply IH. intros m' Hm'. apply H. now right. }
    unfold Finance.rankedSellers. now rewrite F.
Qed.

(** The sales of [ms] carry quantities that are not negative. *)
Lemma sales_nonneg (ms : list Finance.Movement) :
  (forall m, In m ms -> Movement.movement_type m = sale ->
             0 <= Movement.quantity m) ->
  forall m, In m (filter Finance.isSale ms) -> 0 <= Movement.quantity m.
Proof.
  intros H m Hm. apply filter_In in Hm. destruct Hm as [Hm Hs].
  apply H; [exact Hm|]. unfold Finance.isSale in Hs.
  now destruct (Movement.movement_type m).
Qed.

Lemma group_quantity_nonneg (ms : list Finance.Movement) :
  (forall m, In m ms -> Movement.movement_type m = sale ->
             0 <= Movement.quantity m) ->
  forall e, In e (Spec.groupByName ms) ->
    JsNumber.nonnegSF (Prim2SF (BestSeller.quantity e)) = true.
Proof.
  intros H e He. unfold Spec.groupByName in He.
  apply in_map_iff in He. destruct He as (n & <- & _).
  cbn [Spec.group BestSeller.quantity]. apply sum_nonneg.
  intros x Hx. apply in_map_iff in Hx. destruct Hx as (m & <- & Hm).
  apply filter_In in Hm. destruct Hm as [Hm _].
  apply of_Z_nonneg. exact (sales_nonneg ms H m Hm).
Qed.

Lemma group_quantity_exact (ms : list Finance.Movement) :
  (forall m, In m ms -> Movement.movement_type m = sale ->
             0 <= Movement.quantity m) ->
  Spec.sumZ (map Movement.quantity (filter Finance.isSale ms))
  <= JsNumber.MAX_SAFE_INTEGER ->
  forall e, In e (Spec.groupByName ms) ->
    BestSeller.quantity e
    = Js.of_Z (Spec.sumZ (map Movement.quantity
                            (filter (Spec.named (BestSeller.name e))
                               (filter Finance.isSale ms)))).
Proof.
  intros H Hs e He. unfold Spec.groupByName in He.
  apply in_map_iff in He. destruct He as (n & <- & _).
  cbn [Spec.group BestSeller.quantity BestSeller.name].
  unfold Spec.units. rewrite <- map_map. apply sum_of_Z.
  - intros z Hz. apply in_map_iff in Hz. destruct Hz as (m & <- & Hm).
    apply filter_In in Hm. destruct Hm as [Hm _].
    exact (sales_nonneg ms H m Hm).
  - etransitivity; [|exact Hs].
    apply sumZ_filter_le. exact (sales_nonneg ms H).
Qed.

(** X20. With quantities that are not negative, as the data model has
    them, no total is NaN: every best seller shows a total that is a number
    not below zero, and the groups are in descending order of total
    quantity, groups of equal total in order of first appearance. *)
Theorem bestSellers_sorted_for_nonnegative_quantities
    (ms : list Finance.Movement) :
  (forall m, In m ms -> Movement.movement_type m = sale ->
             0 <= Movement.quantity m) ->
  (forall e, In e (Finance.getBestSellers ms) ->
     PrimFloat.is_nan (BestSeller.quantity e) = false
     /\ PrimFloat.leb 0 (BestSeller.quantity e) = true)
  /\ Spec.stable_sorted_desc_number BestSeller.quantity
       (Spec.groupByName ms) (Finance.rankedSellers ms).
Proof.
  intro H. pose proof (group_quantity_nonneg ms H) as N. split.
  - intros e He. apply nonneg_number, N.
    apply In_firstn in He. exact (Permutation_in _ (rankedSellers_perm ms) He).
  - apply rankedSellers_stable_sorted, noNaN_spec.
    intros x Hx. apply in_map_iff in Hx. destruct Hx as (e & <- & He).
    now apply nonneg_number, N.
Qed.

(** X21. While the units sold stay a safe integer, the totals are exact:
    with quantities that are not negative and add up to at most
    [Number.MAX_SAFE_INTEGER], the quantity of each best seller is the
    integer sum of the quantities of the SALE movements of its name. *)
Theorem bestSellers_quantities_exact (ms : list Finance.Movement) :
  (forall m, In m ms -> Movement.movement_type m = sale ->
             0 <= Movement.quantity m) ->
  Spec.sumZ (map Movement.quantity (filter Finance.isSale ms))
  <= JsNumber.MAX_SAFE_INTEGER ->
  forall e, In e (Finance.getBestSellers ms) ->
    BestSeller.quantity e
    = Js.of_Z (Spec.sumZ (map Movement.quantity
                            (filter (Spec.named (BestSeller.name e))
                               (filter Finance.isSale ms)))).
Proof.
  intros H Hs e He. apply group_quantity_exact; auto.
  apply In_firstn in He. exact (Permutation_in _ (rankedSellers_perm ms) He).
Qed.

(** X4. Grouping loses no unit while the units sold stay a safe integer:
    with quantities that are not negative and add up to at most
    [Number.MAX_SAFE_INTEGER], and sales of at most five item names, the
    quantities of the best sellers add up to the quantity of all SALE
    movements. *)
Theorem bestSellers_conserve_quantity (ms : list Finance.Movement) :
  (forall m, In m ms -> Movement.movement_type m = sale ->
             0 <= Movement.quantity m) ->
  Spec.sumZ (map Movement.quantity (filter Finance.isSale ms))
  <= JsNumber.MAX_SAFE_INTEGER ->
  (List.length (Spec.distinct (map Spec.nameOf (filter Finance.isSale ms)))
   <= 5)%nat ->
  Spec.sum (map BestSeller.quantity (Finance.getBestSellers ms))
  = Js.of_Z (Spec.sumZ (map Movement.quantity (filter Finance.isSale ms))).
Proof.
  intros H Hs H5. pose proof (rankedSellers_perm ms) as P.
  set (sales := filter Finance.isSale ms) in *.
  set (k := fun e : BestSeller.t =>
              Spec.sumZ (map Movement.quantity
                           (filter (Spec.named (BestSeller.name e)) sales))).
  assert (K : Spec.sumZ (map k (Finance.rankedSellers ms))
              = Spec.sumZ (map Movement.quantity sales)).
  { rewrite (sumZ_perm _ _ (Permutation_map k P)).
    unfold Spec.groupByName. rewrite map_map. apply group_quantities. }
  unfold Finance.getBestSellers. rewrite firstn_all2.
  - rewrite (map_ext_in _ (fun e => Js.of_Z (k e))).
    + rewrite <- map_map, <- K. apply sum_of_Z; [|now rewrite K].
      intros z Hz. apply in_map_iff in Hz. destruct Hz as (e & <- & _).
      apply sumZ_nonneg. intros z Hz.
      apply in_map_iff in Hz. destruct Hz as (m & <- & Hm).
      apply filter_In in Hm. destruct Hm as [Hm _].
      exact (sales_nonneg ms H m Hm).
    + intros e He. apply (group_quantity_exact ms H Hs).
      exact (Permutation_in _ P He).
  - rewrite (Permutation_length P). unfold Spec.groupByName.
    now rewrite length_map.
Qed.

(** X6. A range that is inverted, or one of whose ends is no date, selects
    nothing: the table is empty, the revenue, the number of sales and the
    average discount of the range are 0, and the cash flow is what the
    purchases cost. *)
Theorem unusable_range_selects_nothing
    (ms : list Finance.Movement) (range : DateRange.t) (now : Z) :
  (forall s e, Js.date_parse (DateRange.startDate range) = Some s ->
               Js.date_parse (DateRange.endDate range) = Some e -> e < s) ->
  Finance.getSalesForTable ms range = []
  /\ FinancialMetrics.totalRevenue (Finance.calculateMetrics ms range now) = 0%float
  /\ FinancialMetrics.totalSales (Finance.calculateMetrics ms range now) = 0
  /\ FinancialMetrics.averageDiscount (Finance.calculateMetrics ms range now) = 0%float
  /\ FinancialMetrics.netCashFlow (Finance.calculateMetrics ms range now)
     = (0 - Spec.totalPurchaseCost ms)%float.
Proof.
  intro H.
  assert (F : filter (Finance.inDateRange range) (filter Finance.isSale ms) = []).
  { rewrite filteredSales_spec.
    destruct (Spec.salesInRange range ms) as [|m l] eqn:E; [reflexivity|].
    assert (Hm : In m (Spec.salesInRange range ms)) by (rewrite E; now left).
    apply salesInRange_In in Hm.
    destruct Hm as (_ & _ & t & s & e & _ & Hs & He & Hr).
    specialize (H s e Hs He). lia. }
  unfold Finance.getSalesForTable, Finance.calculateMetrics.
  cbn [FinancialMetrics.totalRevenue FinancialMetrics.totalSales
       FinancialMetrics.averageDiscount FinancialMetrics.netCashFlow].
  rewrite F. repeat split; try reflexivity.
  cbn [fold_left]. f_equal. unfold Spec.totalPurchaseCost, Spec.sum.
  exact (fold_left_map Spec.purchase_cost PrimFloat.add _ 0%float).
Qed.

Lemma filter_length_mono {A} (p q : A -> bool) (l : list A) :
  (forall x, p x = true -> q x = true) ->
  (List.length (filter p l) <= List.length (filter q l))%nat.
Proof.
  intro H. induction l as [|x l IH]; simpl; [lia|].
  destruct (p x) eqn:P; [rewrite (H x P); simpl; lia|].
  destruct (q x); simpl; lia.
Qed.

(** X7. Widening the range loses no row: every sale shown for a range is
    shown for any range around it, and the number of sales does not
    decrease. *)
Theorem wider_range_keeps_sales
    (ms : list Finance.Movement) (inner outer : DateRange.t) (now : Z)
    (s1 e1 s2 e2 : Z) :
  Js.date_parse (DateRange.startDate inner) = Some s1 ->
  Js.date_parse (DateRange.endDate inner) = Some e1 ->
  Js.date_parse (DateRange.startDate outer) = Some s2 ->
  Js.date_parse (DateRange.endDate outer) = Some e2 ->
  s2 <= s1 -> e1 <= e2 ->
  (forall m, In m (Finance.getSalesForTable ms inner) ->
             In m (Finance.getSalesForTable ms outer))
  /\ FinancialMetrics.totalSales (Finance.calculateMetrics ms inner now)
     <= FinancialMetrics.totalSales (Finance.calculateMetrics ms outer now).
Proof.
  intros Hs1 He1 Hs2 He2 Hs He.
  assert (I : forall m : Finance.Movement,
            Finance.inDateRange inner m = true ->
            Finance.inDateRange outer m = true).
  { intro m. unfold Finance.inDateRange. rewrite Hs1, He1, Hs2, He2.
    destruct (Js.date_parse (Movement.date m)) as [t|]; simpl; [|discriminate].
    rewrite !andb_true_iff, !Z.leb_le. lia. }
  split.
  - intros m Hm. unfold Finance.getSalesForTable in *.
    apply (Permutation_in _ (sort_perm _ _)) in Hm.
    apply (Permutation_in _ (Permutation_sym (sort_perm _ _))).
    rewrite filter_In in *. destruct Hm as [Hm Hr]. split; auto.
  - unfold Finance.calculateMetrics. cbn [FinancialMetrics.totalSales].
    apply inj_le. now apply filter_length_mono.
Qed.

(** X5. The best sellers ignore the dates: whatever the dates of the
    movements are changed to, the list is the same, sales of no valid
    date included. *)
Theorem bestSellers_ignore_dates
    (f : Finance.Movement -> string) (ms : list Finance.Movement) :
  Finance.getBestSellers (map (Probe.redate f) ms) = Finance.getBestSellers ms.
Proof.
  assert (F : filter Finance.isSale (map (Probe.redate f) ms)
              = map (Probe.redate f) (filter Finance.isSale ms)).
  { induction ms as [|m ms IH]; [reflexivity|]. cbn [map filter].
    change (Finance.isSale (Probe.redate f m)) with (Finance.isSale m).
    destruct (Finance.isSale m); cbn [map]; now rewrite IH. }
  assert (G : forall l acc,
            fold_left Finance.addSale (map (Probe.redate f) l) acc
            = fold_left Finance.addSale l acc).
  { induction l as [|m l IH]; intro acc; [reflexivity|]. simpl. apply IH. }
  unfold Finance.getBestSellers, Finance.rankedSellers, Finance.Movement in *.
  now rewrite F, G.
Qed.

(** X8. The counts of the movements page add up, and the finance page agrees
    with them: it counts the same purchases and never more sales. *)
Theorem movement_counts_add_up
    (ms : list Finance.Movement) (range : DateRange.t) (now : Z) :
  MovementSummary.purchases (MovementsPage.summary ms)
  + MovementSummary.sales (MovementsPage.summary ms)
  = MovementSummary.totalMovements (MovementsPage.summary ms)
  /\ FinancialMetrics.totalPurchases (Finance.calculateMetrics ms range now)
     = MovementSummary.purchases (MovementsPage.summary ms)
  /\ 0 <= FinancialMetrics.totalSales (Finance.calculateMetrics ms range now)
       <= MovementSummary.sales (MovementsPage.summary ms).
Proof.
  unfold MovementsPage.summary, Finance.calculateMetrics. simpl.
  split; [|split; [reflexivity|]].
  - induction ms as [|m ms IH]; [reflexivity|]. simpl.
    unfold Finance.isPurchase at 1, Finance.isSale at 1.
    destruct (Movement.movement_type m); simpl; lia.
  - split; [lia|]. apply inj_le. apply List.filter_length_le.
Qed.

(** X18. One more movement at the end of the array: a sale of the range adds
    its line total to the revenue and 1 to the number of sales; any other
    movement leaves both as they were. *)
Theorem appended_movement_adds_its_line_total
    (ms : list Finance.Movement) (m : Finance.Movement)
    (range : DateRange.t) (now : Z) :
  FinancialMetrics.totalRevenue (Finance.calculateMetrics (ms ++ [m]) range now)
  = (if Finance.isSale m && Finance.inDateRange range m
     then (FinancialMetrics.totalRevenue (Finance.calculateMetrics ms range now)
           + Finance.priceAfterDiscount m * Js.of_Z (Movement.quantity m))%float
     else FinancialMetrics.totalRevenue (Finance.calculateMetrics ms range now))
  /\ FinancialMetrics.totalSales (Finance.calculateMetrics (ms ++ [m]) range now)
     = FinancialMetrics.totalSales (Finance.calculateMetrics ms range now)
       + (if Finance.isSale m && Finance.inDateRange range m then 1 else 0).
Proof.
  unfold Finance.calculateMetrics.
  cbn [FinancialMetrics.totalRevenue FinancialMetrics.totalSales].
  rewrite !filter_filter, filter_snoc.
  destruct (Finance.isSale m && Finance.inDateRange range m).
  - rewrite fold_left_app, length_app. cbn [fold_left List.length]. split; [reflexivity | lia].
  - rewrite app_nil_r. split; [reflexivity | lia].
Qed.

(** X19. The sales table is a fixed point: filtering and sorting the table
    again, for the same range, returns the table. *)
Theorem salesTable_idempotent (ms : list Finance.Movement) (range : DateRange.t) :
  Finance.getSalesForTable (Finance.getSalesForTable ms range) range
  = Finance.getSalesForTable ms range.
Proof.
  unfold Finance.getSalesForTable. rewrite !filteredSales_spec.
  pose proof (sort_stable_sorted_desc _ _ _ (byDateDesc_orders range ms))
    as (P & S & K).
  set (out := Js.sort Finance.byDateDesc (Spec.salesInRange range ms)) in *.
  assert (F : Spec.salesInRange range out = out).
  { unfold Spec.salesInRange at 1. apply forallb_filter_id, forallb_forall.
    intros m Hm. apply (Permutation_in _ P) in Hm.
    unfold Spec.salesInRange in Hm. now apply filter_In in Hm. }
  fold out. rewrite F. symmetry.
  apply (stable_sort_unique Finance.byDateDesc Spec.timeOf).
  - intros x y Hx Hy. apply (byDateDesc_orders range ms);
      now apply (Permutation_in _ P).
  - split; [reflexivity|]. split; [exact S | reflexivity].
Qed.

End FinanceExtras.

(** ** The stock page *)

Section StockPageFacts.
Context {host : JsString.StringHost}.

Lemma prefix_empty (s : string) : String.prefix "" s = true.
Proof. destruct s; reflexivity. Qed.

Lemma prefix_refl (s : string) : String.prefix s s = true.
Proof.
  induction s as [|c s IH]; [reflexivity|]. simpl.
  destruct (ascii_dec c c); [exact IH | congruence].
Qed.

Lemma includes_empty (s : string) : JsString.includes s "" = true.
Proof. destruct s; reflexivity. Qed.

Lemma includes_refl (s : string) : JsString.includes s s = true.
Proof. destruct s; simpl; [reflexivity|]. 
  destruct (ascii_dec a a); [|congruence]. now rewrite prefix_refl. Qed.

Lemma filteredStocks_filter (stocks : list StockItem.t) (search : string) :
  StockPage.filteredStocks stocks search
  = filter (StockPage.matches (JsString.toLowerCase (JsString.trim search)))
      stocks.
Proof.
  unfold StockPage.filteredStocks.
  destruct (String.eqb_spec (JsString.toLowerCase (JsString.trim search)) "")
    as [E|N]; [|reflexivity].
  rewrite E. symmetry.
  apply forallb_filter_id, forallb_forall. intros s _.
  unfold StockPage.matches. now rewrite includes_empty.
Qed.

(** X9. The search is one filter: the early return on a blank search
    agrees with it, since every text includes the empty text.  So the
    result is always the items, in the order of the catalogue, whose
    lowered reference or name includes the lowered, trimmed search, and
    every shown item is one of the catalogue. *)
Theorem filteredStocks_is_filter (stocks : list StockItem.t) (search : string) :
  StockPage.filteredStocks stocks search
  = filter (StockPage.matches (JsString.toLowerCase (JsString.trim search)))
      stocks
  /\ (forall s, In s (StockPage.filteredStocks stocks search)
        <-> In s stocks
            /\ (JsString.includes (JsString.toLowerCase (StockItem.reference s))
                  (JsString.toLowerCase (JsString.trim search)) = true
                \/ JsString.includes (JsString.toLowerCase (StockItem.name s))
                     (JsString.toLowerCase (JsString.trim search)) = true)).
Proof.
  split; [apply filteredStocks_filter|].
  intro s. rewrite filteredStocks_filter, filter_In.
  unfold StockPage.matches. now rewrite orb_true_iff.
Qed.

(** X10. Typing the reference of an item, in any case and with blanks
    around it, always shows the item. *)
Theorem search_by_reference_finds_item
    (stocks : list StockItem.t) (search : string) (s : StockItem.t) :
  In s stocks ->
  JsString.toLowerCase (JsString.trim search)
  = JsString.toLowerCase (StockItem.reference s) ->
  In s (StockPage.filteredStocks stocks search).
Proof.
  intros Hs E. rewrite filteredStocks_filter.
  apply filter_In. split; [exact Hs|].
  unfold StockPage.matches. now rewrite E, includes_refl.
Qed.

End StockPageFacts.

Section StockSummaryFacts.

(** X11. The low-stock tile counts part of the items: it lies between 0 and
    the number of items, and it is 0 exactly when every item has at least
    10 units. *)
Theorem lowStock_bounds (stocks : list StockItem.t) :
  0 <= StockSummary.lowStock (StockPage.summary stocks)
    <= StockSummary.totalItems (StockPage.summary stocks)
  /\ (StockSummary.lowStock (StockPage.summary stocks) = 0
      <-> forall s, In s stocks -> 10 <= StockItem.quantity s).
Proof.
  unfold StockPage.summary. cbn [StockSummary.lowStock StockSummary.totalItems].
  split; [split; [lia | apply inj_le, List.filter_length_le]|].
  induction stocks as [|s l IH]; simpl; [split; [contradiction | reflexivity]|].
  destruct (Z.ltb_spec (StockItem.quantity s) 10) as [L|G].
  - split; [simpl List.length; lia|]. intro H.
    specialize (H s (or_introl eq_refl)). lia.
  - rewrite IH. split.
    + intros H x [<-|Hx]; auto.
    + intros H x Hx. apply H. now right.
Qed.

Lemma orZero_nan (x : float) :
  JsNumber.orZero (if PrimFloat.is_nan x then 0%float else x) = JsNumber.orZero x.
Proof.
  destruct (PrimFloat.is_nan x) eqn:E; [|reflexivity].
  unfold JsNumber.orZero at 2. unfold JsNumber.truthy. rewrite E, orb_true_r.
  reflexivity.
Qed.

(** X12. An item whose total value is NaN does not spoil the total: it counts
    as 0. *)
Theorem totalValue_counts_NaN_as_zero (stocks : list StockItem.t) :
  StockSummary.totalValue (StockPage.summary stocks)
  = StockSummary.totalValue (StockPage.summary (map Probe.withoutNaN stocks)).
Proof.
  unfold StockPage.summary. cbn [StockSummary.totalValue].
  generalize 0%float.
  induction stocks as [|s l IH]; intro acc; [reflexivity|].
  cbn [map fold_left]. rewrite IH. do 2 f_equal.
  cbn [Probe.withoutNaN StockItem.total_value]. now rewrite orZero_nan.
Qed.

End StockSummaryFacts.

Section MovementsPageFacts.

(** X14. With unique ids, every item of the catalogue is found by its id; an
    id of no item gives [undefined]. *)
Theorem getStockById_finds_each_item (stocks : list StockItem.t) :
  NoDup (map StockItem.id stocks) ->
  (forall s, In s stocks ->
     MovementsPage.getStockById stocks (StockItem.id s) = Some s)
  /\ (forall id, ~ In id (map StockItem.id stocks) ->
        MovementsPage.getStockById stocks id = None).
Proof.
  unfold MovementsPage.getStockById. intro Hnd. split.
  - induction stocks as [|x l IH]; intros s Hs; [contradiction|].
    simpl in Hnd |- *. inversion_clear Hnd as [|? ? Hx Hl].
    destruct Hs as [->|Hs]; [now rewrite Z.eqb_refl|].
    destruct (Z.eqb_spec (StockItem.id x) (StockItem.id s)) as [E|N].
    + exfalso. apply Hx. rewrite E. now apply in_map.
    + now apply IH.
  - intros id Hid. clear Hnd. induction stocks as [|x l IH]; [reflexivity|].
    simpl in Hid |- *.
    destruct (Z.eqb_spec (StockItem.id x) id); [tauto | apply IH; tauto].
Qed.

End MovementsPageFacts.

(** ** More on the page at run time *)

Section RuntimeExtras.
Context {host : Js.DateHost}.
Import Runtime.

(** X15. The sales table at run time: [sort] works in place, but on the array
    the filter made; the [movements] array and every other array of before
    the call are left as they were, and the table is a new array. *)
Theorem getSalesForTable_leaves_movements
    (movements : ref) (range : DateRange.t) (h : store)
    (a : list JsonMovement) :
  nth_error h movements = Some a ->
  exists table h',
    getSalesForTable movements range h = (Ok table, h')
    /\ table <> movements
    /\ nth_error h' table
       = Some (Js.sort Finance.byDateDesc
                 (filter (Finance.inDateRange range) (filter Finance.isSale a)))
    /\ forall r b, nth_error h r = Some b -> nth_error h' r = Some b.
Proof.
  intro Ha. unfold getSalesForTable.
  repeat run_step. erewrite run_sort by store_lookup.
  rewrite update_alloc. do 2 eexists. split; [reflexivity|].
  assert (L : (movements < List.length h)%nat)
    by (apply nth_error_Some; congruence).
  split; [rewrite length_app; simpl; lia|]. split.
  - apply nth_error_alloc.
  - intros r b Hr. now apply nth_error_kept, nth_error_kept.
Qed.

Lemma reduce_throws {B} (f : B -> JsonMovement -> result B)
    (l : list (Movement.t (option StockItem.t))) :
  (forall b m, Probe.lacksStock m = true -> f b m = Throw TypeError) ->
  (forall b m, Probe.lacksStock m = false -> exists b', f b m = Ok b') ->
  forall acc,
    if existsb Probe.lacksStock l
    then reduce_result f l acc = Throw TypeError
    else exists v, reduce_result f l acc = Ok v.
Proof.
  intros Hn Hs. induction l as [|m l IH]; intro acc; simpl.
  - now exists acc.
  - destruct (Probe.lacksStock m) eqn:E; simpl.
    + now rewrite Hn.
    + destruct (Hs acc m E) as [b' ->]. simpl. apply IH.
Qed.

Lemma addLineTotal_throws (l : list (Movement.t (option StockItem.t))) (acc : float) :
  if existsb Probe.lacksStock l
  then reduce_result addLineTotal l acc = Throw TypeError
  else exists v, reduce_result addLineTotal l acc = Ok v.
Proof.
  apply reduce_throws; intros b m; unfold Probe.lacksStock, addLineTotal,
    priceAfterDiscount, stockOf; destruct (Movement.stock m);
    try discriminate; intros _; simpl; eauto.
Qed.

Lemma addPurchaseCost_throws (l : list (Movement.t (option StockItem.t))) (acc : float) :
  if existsb Probe.lacksStock l
  then reduce_result addPurchaseCost l acc = Throw TypeError
  else exists v, reduce_result addPurchaseCost l acc = Ok v.
Proof.
  apply reduce_throws; intros b m; unfold Probe.lacksStock, addPurchaseCost,
    stockOf; destruct (Movement.stock m);
    try discriminate; intros _; simpl; eauto.
Qed.

Lemma addSale_throws (l : list (Movement.t (option StockItem.t))) (acc : Js.Map ItemSales.t) :
  if existsb Probe.lacksStock l
  then reduce_result addSale l acc = Throw TypeError
  else exists v, reduce_result addSale l acc = Ok v.
Proof.
  apply reduce_throws; intros b m; unfold Probe.lacksStock, addSale,
    priceAfterDiscount, stockOf; destruct (Movement.stock m);
    try discriminate; intros _; simpl; eauto.
Qed.

Lemma addDiscount_total (l : list (Movement.t (option StockItem.t))) (acc : float) :
  exists v, reduce_result addDiscount l acc = Ok v.
Proof.
  revert acc. induction l as [|m l IH]; intro acc; simpl; eauto.
Qed.

Lemma existsb_filter {A} (p q : A -> bool) (l : list A) :
  existsb p (filter q l) = existsb (fun x => q x && p x) l.
Proof.
  induction l as [|x l IH]; [reflexivity|]. simpl.
  destruct (q x); simpl; now rewrite IH.
Qed.

Lemma calculateMetrics_outcome
    (movements : ref) (range : DateRange.t) (now : Z) (h : store)
    (a : list JsonMovement) :
  nth_error h movements = Some a ->
  if existsb (fun m => Probe.readByMetrics range now m && Probe.lacksStock m) a
  then fst (calculateMetrics movements range now h) = Throw TypeError
  else exists metrics,
         fst (calculateMetrics movements range now h) = Ok metrics.
Proof.
  intro Ha. unfold calculateMetrics. do 3 run_step.
  unfold JsonMovement in *.
  set (F := filter (Finance.inDateRange range) (filter Finance.isSale a)).
  set (Mo := filter (Finance.inCurrentMonth now) (filter Finance.isSale a)).
  set (P := filter Finance.isPurchase a).
  assert (E : existsb (fun m => Probe.readByMetrics range now m && Probe.lacksStock m) a
              = existsb Probe.lacksStock F || existsb Probe.lacksStock Mo
                || existsb Probe.lacksStock P).
  { subst F Mo P. rewrite !existsb_filter. clear Ha.
    induction a as [|m l IH]; [reflexivity|]. simpl. rewrite IH.
    unfold Probe.readByMetrics.
    destruct (Finance.isPurchase m), (Finance.isSale m),
      (Finance.inDateRange range m), (Finance.inCurrentMonth now m),
      (Probe.lacksStock m); simpl;
      rewrite ?orb_true_r, ?orb_false_r; try reflexivity;
      destruct (existsb _ l); try reflexivity;
      simpl; rewrite ?orb_true_r; reflexivity. }
  unfold JsonMovement in *. rewrite E. clear E. run_step.
  unfold JsonMovement in *. fold F.
  generalize (addLineTotal_throws F 0%float).
  destruct (existsb Probe.lacksStock F); intro HF; [now rewrite HF|].
  destruct HF as [v1 ->].
  do 2 run_step. unfold JsonMovement in *. fold Mo.
  generalize (addLineTotal_throws Mo 0%float).
  destruct (existsb Probe.lacksStock Mo); intro HM; [now rewrite HM|].
  destruct HM as [v2 ->].
  destruct (addDiscount_total F 0%float) as [v3 E3].
  generalize (addPurchaseCost_throws P 0%float).
  repeat run_step. unfold JsonMovement in *. fold F P.
  destruct (Z.of_nat (List.length F) >? 0);
    repeat run_step; unfold JsonMovement in *; fold F P;
    rewrite ?E3; repeat run_step; unfold JsonMovement in *; fold P;
    (destruct (existsb Probe.lacksStock P); intro HP;
     [now rewrite HP | destruct HP as [v4 ->]; simpl; eauto]).
Qed.

Lemma getBestSellers_outcome
    (movements : ref) (h : store) (a : list JsonMovement) :
  nth_error h movements = Some a ->
  if existsb (fun m => Finance.isSale m && Probe.lacksStock m) a
  then fst (getBestSellers movements h) = Throw TypeError
  else exists sellers, fst (getBestSellers movements h) = Ok sellers.
Proof.
  intro Ha. rewrite <- existsb_filter. unfold getBestSellers.
  do 2 run_step. unfold JsonMovement in *.
  generalize (addSale_throws (filter Finance.isSale a) Js.Map_empty).
  destruct (existsb Probe.lacksStock (filter Finance.isSale a)); intro H;
    [now rewrite H | destruct H as [v ->]; simpl; eauto].
Qed.

Lemma existsb_lacking {A} (p : A -> bool) (l : list A) :
  existsb p l = true <-> exists m, In m l /\ p m = true.
Proof. apply existsb_exists. Qed.

(** X16. The summary throws exactly when a movement it reads the item of
    has none: a purchase, or a sale of the range or of the current month;
    a sale outside both may lack its item without harm.  When it does not
    throw it returns its metrics. *)
Theorem calculateMetrics_throws_iff
    (movements : ref) (range : DateRange.t) (now : Z) (h : store)
    (a : list JsonMovement) :
  nth_error h movements = Some a ->
  (fst (calculateMetrics movements range now h) = Throw TypeError
   <-> exists m, In m a /\ Probe.readByMetrics range now m = true
                 /\ Movement.stock m = None)
  /\ (fst (calculateMetrics movements range now h) = Throw TypeError
      \/ exists metrics,
           fst (calculateMetrics movements range now h) = Ok metrics).
Proof.
  intro Ha. pose proof (calculateMetrics_outcome movements range now h a Ha) as H.
  destruct (existsb (fun m => Probe.readByMetrics range now m
                              && Probe.lacksStock m) a) eqn:E.
  - split; [|now left]. split; [intros _|intros _; exact H].
    apply existsb_lacking in E. destruct E as (m & Hm & Hp).
    apply andb_true_iff in Hp. destruct Hp as [Hr Hl].
    exists m. repeat split; auto.
    unfold Probe.lacksStock in Hl. now destruct (Movement.stock m).
  - destruct H as [metrics H]. split; [|right; now exists metrics].
    split; [rewrite H; discriminate|].
    intros (m & Hm & Hr & Hn).
    assert (T : existsb (fun m => Probe.readByMetrics range now m
                                  && Probe.lacksStock m) a = true).
    { apply existsb_lacking. exists m. split; [exact Hm|].
      unfold Probe.lacksStock. now rewrite Hr, Hn. }
    congruence.
Qed.

(** X17. The best sellers throw exactly when some SALE movement, of
    whatever date, lacks its item; otherwise they return their list. *)
Theorem getBestSellers_throws_iff
    (movements : ref) (h : store) (a : list JsonMovement) :
  nth_error h movements = Some a ->
  (fst (getBestSellers movements h) = Throw TypeError
   <-> exists m, In m a /\ Movement.movement_type m = sale
                 /\ Movement.stock m = None)
  /\ (fst (getBestSellers movements h) = Throw TypeError
      \/ exists sellers, fst (getBestSellers movements h) = Ok sellers).
Proof.
  intro Ha. pose proof (getBestSellers_outcome movements h a Ha) as H.
  assert (S : forall m : Movement.t (option StockItem.t),
            Finance.isSale m = true <-> Movement.movement_type m = sale).
  { intro m. unfold Finance.isSale.
    destruct (Movement.movement_type m); simpl; split; congruence. }
  destruct (existsb (fun m => Finance.isSale m && Probe.lacksStock m) a) eqn:E.
  - split; [|now left]. split; [intros _|intros _; exact H].
    apply existsb_lacking in E. destruct E as (m & Hm & Hp).
    apply andb_true_iff in Hp. destruct Hp as [Hr Hl].
    exists m. repeat split; auto; [now apply S|].
    unfold Probe.lacksStock in Hl. now destruct (Movement.stock m).
  - destruct H as [sellers H]. split; [|right; now exists sellers].
    split; [rewrite H; discriminate|].
    intros (m & Hm & Hr & Hn).
    assert (T : existsb (fun m => Finance.isSale m && Probe.lacksStock m) a
                = true).
    { apply existsb_lacking. exists m. split; [exact Hm|].
      apply S in Hr. unfold Probe.lacksStock. now rewrite Hr, Hn. }
    congruence.
Qed.

End RuntimeExtras.

(** ** The properties above at sample inputs *)

Lemma bestSellers_sorted_nonnegative_witness :
  Spec.stable_sorted_desc_number BestSeller.quantity
    (Spec.groupByName [Sample.saleA5; Sample.saleB8])
    (Finance.rankedSellers [Sample.saleA5; Sample.saleB8]).
Proof.
  apply (bestSellers_sorted_for_nonnegative_quantities
           [Sample.saleA5; Sample.saleB8]).
  intros m [<-|[<-|[]]] _; simpl; lia.
Defined.

Lemma bestSellers_quantities_exact_witness :
  8%float
  = Js.of_Z (Spec.sumZ (map Movement.quantity
                          (filter (Spec.named "B")
                             (filter Finance.isSale
                                [Sample.saleA5; Sample.saleB8])))).
Proof.
  apply (bestSellers_quantities_exact [Sample.saleA5; Sample.saleB8])
    with (e := {| BestSeller.name := "B";
                  BestSeller.quantity := 8%float;
                  BestSeller.revenue := 800%float |}).
  - intros m [<-|[<-|[]]] _; simpl; lia.
  - vm_compute. discriminate.
  - vm_compute. left. reflexivity.
Defined.

Lemma bestSellers_conserve_quantity_witness :
  Spec.sum (map BestSeller.quantity
              (Finance.getBestSellers [Sample.saleA5; Sample.saleB8]))
  = Js.of_Z (Spec.sumZ (map Movement.quantity
                          (filter Finance.isSale
                             [Sample.saleA5; Sample.saleB8]))).
Proof.
  apply (bestSellers_conserve_quantity [Sample.saleA5; Sample.saleB8]).
  - intros m [<-|[<-|[]]] _; simpl; lia.
  - vm_compute. discriminate.
  - vm_compute. lia.
Defined.

Lemma unusable_range_witness :
  @Finance.getSalesForTable Js.utcHost [Sample.saleA5; Sample.saleB8]
    Probe.inverted = []
  /\ FinancialMetrics.totalSales
       (@Finance.calculateMetrics Js.utcHost [Sample.saleA5; Sample.saleB8]
          Probe.inverted Sample.midMarch) = 0.
Proof.
  destruct (@unusable_range_selects_nothing Js.utcHost
              [Sample.saleA5; Sample.saleB8] Probe.inverted Sample.midMarch)
    as (T & _ & N & _).
  - intros s e Hs He. vm_compute in Hs, He.
    injection Hs as <-. injection He as <-. lia.
  - split; [exact T | exact N].
Defined.

Lemma wider_range_witness :
  FinancialMetrics.totalSales
    (@Finance.calculateMetrics Js.utcHost [Sample.saleA5; Sample.saleB8]
       Probe.february Sample.midMarch)
  <= FinancialMetrics.totalSales
       (@Finance.calculateMetrics Js.utcHost [Sample.saleA5; Sample.saleB8]
          {| DateRange.startDate := "2024-01-01";
             DateRange.endDate := "2024-03-31" |} Sample.midMarch).
Proof.
  apply (@wider_range_keeps_sales Js.utcHost [Sample.saleA5; Sample.saleB8]
           Probe.february
           {| DateRange.startDate := "2024-01-01";
              DateRange.endDate := "2024-03-31" |}
           Sample.midMarch
           1706745600000 1709164800000 1704067200000 1711843200000);
    try reflexivity; lia.
Defined.

Lemma search_by_reference_witness :
  In Sample.itemB
    (@StockPage.filteredStocks JsString.asciiHost [Sample.itemA; Sample.itemB]
       "  ref-b ").
Proof.
  apply (@search_by_reference_finds_item JsString.asciiHost
           [Sample.itemA; Sample.itemB] "  ref-b " Sample.itemB).
  - simpl. tauto.
  - vm_compute. reflexivity.
Defined.

Lemma getStockById_witness :
  MovementsPage.getStockById [Sample.itemA; Sample.itemB] 2 = Some Sample.itemB
  /\ MovementsPage.getStockById [Sample.itemA; Sample.itemB] 7 = None.
Proof.
  destruct (getStockById_finds_each_item [Sample.itemA; Sample.itemB])
    as [Hf Hn].
  - simpl. repeat constructor; simpl; intuition discriminate.
  - split.
    + apply (Hf Sample.itemB). simpl. tauto.
    + apply Hn. simpl. intuition discriminate.
Defined.

Lemma getSalesForTable_leaves_movements_witness :
  exists table h',
    @Runtime.getSalesForTable Js.utcHost 0%nat Sample.march
      [map Runtime.payload [Sample.saleA5; Sample.saleB8]]
    = (Runtime.Ok table, h')
    /\ table <> 0%nat
    /\ nth_error h' 0%nat
       = Some (map Runtime.payload [Sample.saleA5; Sample.saleB8]).
Proof.
  destruct (@getSalesForTable_leaves_movements Js.utcHost 0%nat Sample.march
              [map Runtime.payload [Sample.saleA5; Sample.saleB8]]
              (map Runtime.payload [Sample.saleA5; Sample.saleB8]) eq_refl)
    as (table & h' & E & N & _ & K).
  exists table, h'. split; [exact E|]. split; [exact N|].
  apply K. reflexivity.
Defined.

Lemma calculateMetrics_throws_witness :
  fst (@Runtime.calculateMetrics Js.utcHost 0%nat Sample.march Sample.midMarch
         [[Probe.oldOrphanSale; Sample.orphanSale]])
  = Runtime.Throw Runtime.TypeError.
Proof.
  destruct (@calculateMetrics_throws_iff Js.utcHost 0%nat Sample.march
              Sample.midMarch [[Probe.oldOrphanSale; Sample.orphanSale]]
              [Probe.oldOrphanSale; Sample.orphanSale] eq_refl) as [[_ H] _].
  apply H. exists Sample.orphanSale. split; [simpl; tauto|].
  split; [vm_compute|]; reflexivity.
Defined.

Lemma getBestSellers_throws_witness :
  fst (Runtime.getBestSellers 0%nat [[Probe.oldOrphanSale]])
  = Runtime.Throw Runtime.TypeError.
Proof.
  destruct (getBestSellers_throws_iff 0%nat [[Probe.oldOrphanSale]]
              [Probe.oldOrphanSale] eq_refl) as [[_ H] _].
  apply H. exists Probe.oldOrphanSale. split; [simpl; tauto|].
  split; reflexivity.
Defined.

(** A sale of last year that carries no item: the summary of March does
    not read it and returns, the best sellers read it and throw. *)
Example old_orphan_sale_harms_best_sellers_only :
  (exists metrics,
     fst (@Runtime.calculateMetrics Js.utcHost 0%nat Sample.march
            Sample.midMarch [[Probe.oldOrphanSale]]) = Runtime.Ok metrics)
  /\ fst (Runtime.getBestSellers 0%nat [[Probe.oldOrphanSale]])
     = Runtime.Throw Runtime.TypeError.
Proof. split; [eexists|]; vm_compute; reflexivity. Qed.
